(** * stackoverflow.py: top-N unanswered questions, batched pagination

    A shallow embedding of [StackExchangeClient] and
    [StackOverflowController] from [stackoverflow.py], and the properties of
    its filter, top-N selector, page fetcher and batch scheduler.

    Modelling conventions.
    - Python [int] is [Z]; [%] is [Z.modulo] and [//] is [Z.div] (both floor,
      the remainder takes the sign of the divisor, as in Python).
    - A question is a [dict]: a finite map from field names to JSON values.
      Dicts are mutable objects, and [is_answered] pops a field from the
      object it is handed; the objects therefore live in a heap and lists
      hold references to them.  [response.json()] builds fresh objects on
      every call; the i-th item of the response for page p is the object
      named [(p, i)].
    - Exceptions are values of [exception]; a computation that may raise
      returns [result].  Stateful code is written in the monad [M].
    - [await] is sequencing.  [asyncio.gather] runs the fetches of one group;
      which of several failing fetches raises first is decided by their
      completion times, a parameter [arrival] of the model.
    - The [while] loop of the controller runs on fuel; [None] is "fuel
      exhausted", and the loop is shown to finish for every batch size >= 1. *)

From stdpp Require Import base option list gmap strings pretty sorting.
From Stdlib Require Import ZArith Lia Ascii.

Local Open Scope Z_scope.

(* stdpp's solvers clear hypotheses by name after using them. *)
Set Warnings "-clear-no-such-hyp".
(* A lemma of a section depends on the variables its statement mentions. *)
Set Default Proof Using "Type*".

(** ** Data model *)

(** JSON scalars found in the fields the API returns (counts, ids and dates
    are integers, [link] is a string). *)
Inductive value : Type :=
  | VInt (z : Z)
  | VStr (s : string).

#[global] Instance value_eq_dec : EqDecision value.
Proof. solve_decision. Defined.

(** A question as decoded from the response body. *)
Abbreviation question := (gmap string value).

(** Object identity: page number and index in the page's [items]. *)
Abbreviation loc := (Z * nat)%type.

(** The heap of question objects. *)
Abbreviation heap := (gmap loc (gmap string value)).

Inductive exception : Type :=
  | Exception (msg : string)          (* raise Exception(f"...") *)
  | KeyError (key : string)           (* q["view_count"] on a dict without it *)
  | TypeError                         (* comparing a str with an int *)
  | ZeroDivisionError
  | ClientError (msg : string)        (* raised by the aiohttp session *)
  | Dangling (l : loc).               (* model only: a reference to no object *)

#[global] Instance exception_eq_dec : EqDecision exception.
Proof. solve_decision. Defined.

Inductive result (A : Type) : Type :=
  | Ok (a : A)
  | Err (e : exception).
Arguments Ok {A} a.
Arguments Err {A} e.

Definition is_ok {A} (r : result A) : bool :=
  match r with Ok _ => true | Err _ => false end.

(** Computations over the heap that may raise. *)
Definition M (A : Type) : Type := heap → result (A * heap).

Definition ret {A} (a : A) : M A := λ σ, Ok (a, σ).
Definition raise {A} (e : exception) : M A := λ _, Err e.
Definition bind {A B} (m : M A) (k : A → M B) : M B :=
  λ σ, match m σ with
       | Ok (a, σ') => k a σ'
       | Err e => Err e
       end.
(** A pure computation that may raise, run without touching the heap. *)
Definition lift {A} (r : result A) : M A :=
  λ σ, match r with Ok a => Ok (a, σ) | Err e => Err e end.

Notation "'let*' x := m 'in' k" := (bind m (λ x, k))
  (at level 10, x pattern, m at level 100, k at level 200, only parsing).

(** ** Python primitives *)

(** [d.pop(k, dflt)]: the value under [k] (or [dflt]) and the dict without
    [k]. *)
Definition dict_pop (k : string) (dflt : value) (d : gmap string value)
  : value * gmap string value :=
  (default dflt (d !! k), delete k d).

(** [l[:n]]: the first [n] elements, or all but the last [-n] when [n] is
    negative. *)
Definition slice_to {A} (n : Z) (l : list A) : list A :=
  if 0 <=? n then take (Z.to_nat n) l
  else take (Z.to_nat (Z.of_nat (length l) + n)) l.

(** [math.ceil(a / b)] for [b <> 0].  The source divides in floating point;
    the quotient is exact for the magnitudes a page count takes (below
    2^52). *)
Definition ceil_div (a b : Z) : Z := - ((- a) / b).

(** [sorted(l, key=..., reverse=True)] on a list decorated with its keys:
    Python's sort is stable, also with [reverse=True], so an element is placed
    after every element with a larger key and before the elements with an
    equal or smaller key that followed it in the input. *)
Fixpoint insert_desc {A} (x : Z * A) (l : list (Z * A)) : list (Z * A) :=
  match l with
  | [] => [x]
  | y :: l' => if x.1 <? y.1 then y :: insert_desc x l' else x :: l
  end.

Fixpoint sorted_desc {A} (l : list (Z * A)) : list (Z * A) :=
  match l with
  | [] => []
  | x :: l' => insert_desc x (sorted_desc l')
  end.

(** ** StackExchangeClient *)

(** [q["view_count"]], the sort key.  A key that is not an integer is outside
    the API's schema; it is reported as [TypeError], which Python raises when
    the sort compares such a key with an integer. *)
Definition view_count (σ : heap) (l : loc) : result Z :=
  match σ !! l with
  | None => Err (Dangling l)
  | Some q =>
      match q !! "view_count" with
      | None => Err (KeyError "view_count")
      | Some (VInt z) => Ok z
      | Some (VStr _) => Err TypeError
      end
  end.

(** The key function applied to every element, left to right. *)
Fixpoint decorate (σ : heap) (qs : list loc) : result (list (Z * loc)) :=
  match qs with
  | [] => Ok []
  | l :: qs' =>
      match view_count σ l with
      | Err e => Err e
      | Ok k =>
          match decorate σ qs' with
          | Err e => Err e
          | Ok ks => Ok ((k, l) :: ks)
          end
      end
  end.

Definition get_top_n_questions_by_view_count
    (σ : heap) (questions : list loc) (n : Z) : result (list loc) :=
  match decorate σ questions with
  | Err e => Err e
  | Ok ks => Ok (slice_to n (snd <$> sorted_desc ks))
  end.

(** [question.pop("answer_count", 0) > 0]; the field is removed from the
    object before the comparison is made. *)
Definition is_answered (l : loc) : M bool :=
  λ σ, match σ !! l with
       | None => Err (Dangling l)
       | Some q =>
           let '(v, q') := dict_pop "answer_count" (VInt 0) q in
           match v with
           | VInt z => Ok (0 <? z, <[l := q']> σ)
           | VStr _ => Err TypeError
           end
       end.

(** [list(filter(lambda q: not cls.is_answered(q), questions))] *)
Fixpoint remove_answered_questions (questions : list loc) : M (list loc) :=
  match questions with
  | [] => ret []
  | l :: qs =>
      let* b := is_answered l in
      let* kept := remove_answered_questions qs in
      ret (if b then kept else l :: kept)
  end.

(** The client object: [__site], [__base_url] and [__question_filter]. *)
Record StackExchangeClient : Type := {
  site : string;
  base_url : string;
  question_filter : string
}.

(** [StackExchangeClient.__init__] *)
Definition new_client (site api_name : string) : StackExchangeClient :=
  {| site := site;
     base_url := "https://api.stackexchange.com/2.3/" +:+ api_name;
     question_filter := "!m9aF_UAbWOtMBiDgLzfN4Q" |}.

(** The dict [query_params]. *)
Record query_params : Type := {
  q_tagged : string;
  q_intitle : string;
  q_fromdate : Z;
  q_page : Z;
  q_pagesize : Z;
  q_sort : string;
  q_site : string;
  q_filter : string
}.

(** What [session.get] and [response.json()] give back: the status flag
    [response.ok] and the fields the code reads from the body with
    [.get(key, default)]; [None] is an absent key. *)
Record response : Type := {
  ok : bool;
  error_message : option string;
  error_id : option Z;
  items : option (list (gmap string value));
  total : option Z
}.

(** The aiohttp session together with the remote service behind it: the
    reply to a GET of a URL with query parameters, or a transport error. *)
Definition ClientSession : Type := string → query_params → result response.

Definition build_query_params (self : StackExchangeClient)
    (tag in_title : string) (from_date page_number page_size : Z)
  : query_params :=
  {| q_tagged := tag;
     q_intitle := in_title;
     q_fromdate := from_date;
     q_page := page_number;
     q_pagesize := page_size;
     q_sort := "creation";
     q_site := site self;
     q_filter := question_filter self |}.

(** The text of the exception raised for a response that is not [ok]. *)
Definition fetch_error_text (page_number : Z) (error_message : string)
    (error_code : Z) : string :=
  "Unable to fetch page #" +:+ pretty page_number +:+ ": " +:+ error_message
    +:+ " | Error code: " +:+ pretty error_code.

(** Decoding the [items] of page [page_number]: the i-th dict (counting from
    [i]) becomes the object [(page_number, i)]. *)
Fixpoint alloc_from (page_number : Z) (i : nat)
    (qs : list (gmap string value)) (σ : heap) : heap :=
  match qs with
  | [] => σ
  | q :: qs' => <[(page_number, i) := q]> (alloc_from page_number (S i) qs' σ)
  end.

Definition item_locs (page_number : Z) (qs : list (gmap string value))
  : list loc :=
  (λ i, (page_number, i)) <$> seq 0 (length qs).

(** The dicts are the ones [response.json()] built; they are entered in the
    heap where the code first takes them from the body. *)
Definition decode_items (page_number : Z) (qs : list (gmap string value))
  : M (list loc) :=
  λ σ, Ok (item_locs page_number qs, alloc_from page_number 0 qs σ).

(** Reading the heap without changing it. *)
Definition read {A} (f : heap → result A) : M A := λ σ, lift (f σ) σ.

Definition fetch_top_n_unanswered_questions_async
    (self : StackExchangeClient) (session : ClientSession)
    (tag in_title : string) (from_date page_number n page_size : Z)
  : M (list loc * Z) :=
  let query := build_query_params self tag in_title from_date page_number
                 page_size in
  let* response_body := lift (session (base_url self) query) in
  if negb (ok response_body) then
    raise (Exception (fetch_error_text page_number
             (default "Something went wrong." (error_message response_body))
             (default 500 (error_id response_body))))
  else
    let* questions := decode_items page_number
                        (default [] (items response_body)) in
    let* unanswered_questions := remove_answered_questions questions in
    let* top_n_questions :=
      read (λ σ, get_top_n_questions_by_view_count σ unanswered_questions n) in
    let total_question_count := default 0 (total response_body) in
    if page_size =? 0 then raise ZeroDivisionError
    else
      let total_page_count := ceil_div total_question_count page_size in
      let remaining_page_count := total_page_count - page_number in
      ret (top_n_questions, remaining_page_count).

(** ** StackOverflowController *)

Record StackOverflowController : Type := { client : StackExchangeClient }.

(** [StackOverflowController.__init__] *)
Definition new_controller : StackOverflowController :=
  {| client := new_client "stackoverflow" "search" |}.

(** [remaining_page_count % batch_size or batch_size] *)
Definition current_page_count (remaining_page_count batch_size : Z) : Z :=
  if remaining_page_count mod batch_size =? 0 then batch_size
  else remaining_page_count mod batch_size.

(** The page numbers handed out by [for i in range(current_page_count)],
    each after [page_number += 1]. *)
Definition group_pages (page_number current_page_count : Z) : list Z :=
  (λ i, page_number + 1 + Z.of_nat i) <$> seq 0 (Z.to_nat current_page_count).

(** The fetches of one group, run on the heap in page order; failures are
    collected with the page they belong to. *)
Fixpoint run_fetches {A} (fetch : Z → M A) (pages : list Z) (σ : heap)
  : list (Z * exception) * list A * heap :=
  match pages with
  | [] => ([], [], σ)
  | p :: ps =>
      match fetch p σ with
      | Ok (a, σ') =>
          let '(errs, oks, σ'') := run_fetches fetch ps σ' in
          (errs, a :: oks, σ'')
      | Err e =>
          let '(errs, oks, σ'') := run_fetches fetch ps σ in
          ((p, e) :: errs, oks, σ'')
      end
  end.

(** The failure that is raised first: the one whose fetch completes first
    (the earlier page on a tie). *)
Fixpoint first_raised (arrival : Z → nat) (x : Z * exception)
    (errs : list (Z * exception)) : Z * exception :=
  match errs with
  | [] => x
  | y :: errs' =>
      first_raised arrival
        (if Nat.ltb (arrival y.1) (arrival x.1) then y else x) errs'
  end.

(** [await asyncio.gather] of the coroutines: the results in the order of the
    coroutines, or the first exception raised by one of them. *)
Definition gather {A} (arrival : Z → nat) (fetch : Z → M A) (pages : list Z)
  : M (list A) :=
  λ σ, match run_fetches fetch pages σ with
       | ([], oks, σ') => Ok (oks, σ')
       | (x :: errs, _, _) => Err (first_raised arrival x errs).2
       end.

(** One merge of the running list with the items of a page:
    [top_n_questions += top_n] and the selector applied to the outcome. *)
Definition merge (σ : heap) (top_n_questions top_n : list loc) (n : Z)
  : result (list loc) :=
  get_top_n_questions_by_view_count σ (top_n_questions ++ top_n) n.

(** The [for top_n, _ in coroutine_result] loop. *)
Fixpoint fold_group (σ : heap) (top_n_questions : list loc)
    (coroutine_result : list (list loc * Z)) (n : Z) : result (list loc) :=
  match coroutine_result with
  | [] => Ok top_n_questions
  | (top_n, _) :: rest =>
      match merge σ top_n_questions top_n n with
      | Err e => Err e
      | Ok top' => fold_group σ top' rest n
      end
  end.

(** The [while remaining_page_count > 0] loop.  Besides the outcome it
    reports the groups of pages it requested, one list per [gather]. *)
Fixpoint drain (fuel : nat) (self : StackOverflowController)
    (session : ClientSession) (arrival : Z → nat) (tag in_title : string)
    (from_date batch_size n page_number remaining_page_count : Z)
    (top_n_questions : list loc) (σ : heap)
  : option (list (list Z) * result (list loc * heap)) :=
  if 0 <? remaining_page_count then
    match fuel with
    | O => None
    | S fuel' =>
        if batch_size =? 0 then Some ([], Err ZeroDivisionError)
        else
          let current := current_page_count remaining_page_count batch_size in
          let remaining' := remaining_page_count - current in
          let pages := group_pages page_number current in
          let page_number' := page_number + Z.of_nat (length pages) in
          match gather arrival
                  (λ p, fetch_top_n_unanswered_questions_async (client self)
                          session tag in_title from_date p n 100) pages σ
          with
          | Err e => Some ([pages], Err e)
          | Ok (coroutine_result, σ') =>
              match fold_group σ' top_n_questions coroutine_result n with
              | Err e => Some ([pages], Err e)
              | Ok top' =>
                  match drain fuel' self session arrival tag in_title
                          from_date batch_size n page_number' remaining' top'
                          σ'
                  with
                  | None => None
                  | Some (groups, out) => Some (pages :: groups, out)
                  end
              end
          end
    end
  else Some ([], Ok (top_n_questions, σ)).

Definition get_top_n_unanswered_questions_async (fuel : nat)
    (self : StackOverflowController) (session : ClientSession)
    (arrival : Z → nat) (tag in_title : string)
    (from_date batch_size n : Z)
  : option (list (list Z) * result (list loc * heap)) :=
  match fetch_top_n_unanswered_questions_async (client self) session tag
          in_title from_date 1 n 100 ∅
  with
  | Err e => Some ([], Err e)
  | Ok ((top_n_questions, remaining_page_count), σ) =>
      drain fuel self session arrival tag in_title from_date batch_size n 1
        remaining_page_count top_n_questions σ
  end.

(** [get_week_ago_in_seconds], given what [datetime.now()] reads, in
    microseconds since the epoch (the local UTC offset is taken to be the
    same a week earlier). *)
Definition get_week_ago_in_seconds (now : Z) : Z :=
  let today := now in
  let week_ago := today - 7 * 86400 * 1000000 in
  week_ago / 1000000.

(** The default values of the optional parameters of
    [get_top_n_unanswered_questions_async].  Python evaluates the default
    expressions once, when the [def] statement runs, and keeps the values in
    the function object. *)
Record parameter_defaults : Type := {
  default_in_title : string;
  default_from_date : Z;
  default_batch_size : Z;
  default_n : Z
}.

(** The [def] statement, run when the clock reads [now]. *)
Definition define_get_top_n_unanswered_questions_async (now : Z)
  : parameter_defaults :=
  {| default_in_title := "";
     default_from_date := get_week_ago_in_seconds now;
     default_batch_size := 10;
     default_n := 5 |}.

(** A call made when the clock reads [now], each optional argument given or
    omitted ([None]).  Nothing in the call reads the clock. *)
Definition call_get_top_n_unanswered_questions_async
    (defaults : parameter_defaults) (now : Z) (fuel : nat)
    (self : StackOverflowController) (session : ClientSession)
    (arrival : Z → nat) (tag : string) (in_title : option string)
    (from_date batch_size n : option Z)
  : option (list (list Z) * result (list loc * heap)) :=
  get_top_n_unanswered_questions_async fuel self session arrival tag
    (default (default_in_title defaults) in_title)
    (default (default_from_date defaults) from_date)
    (default (default_batch_size defaults) batch_size)
    (default (default_n defaults) n).

(** The list of dicts the caller receives. *)
Definition returned_questions (out : list loc * heap)
  : list (gmap string value) :=
  omap (λ l, out.2 !! l) out.1.

(** ** Notions used in the statements *)

(** Descending order of decorated elements. *)
Definition desc {A} : relation (Z * A) := λ x y, y.1 ≤ x.1.

(** [a] stands at an earlier position of [l] than [b]. *)
Definition before {A} (a b : A) (l : list A) : Prop :=
  ∃ l1 l2 l3, l = l1 ++ a :: l2 ++ b :: l3.

(** Both objects have a rank key, and that of [a] is at least that of [b]. *)
Definition rank_ge (σ : heap) (a b : loc) : Prop :=
  ∃ ka kb, view_count σ a = Ok ka ∧ view_count σ b = Ok kb ∧ kb ≤ ka.

(** The filter predicate on the dict as it came from the remote service:
    no [answer_count], or one that is not positive. *)
Definition unanswered (q : gmap string value) : bool :=
  match q !! "answer_count" with
  | None => true
  | Some (VInt z) => negb (0 <? z)
  | Some (VStr _) => false
  end.

(** [answer_count] can be compared with [0]. *)
Definition count_ok (q : gmap string value) : bool :=
  match q !! "answer_count" with
  | Some (VStr _) => false
  | _ => true
  end.

(** The objects of a page (numbered from [i]) whose dict is unanswered. *)
Fixpoint unanswered_from (page_number : Z) (i : nat)
    (qs : list (gmap string value)) : list loc :=
  match qs with
  | [] => []
  | q :: qs' =>
      if unanswered q then (page_number, i) :: unanswered_from page_number (S i) qs'
      else unanswered_from page_number (S i) qs'
  end.

(** The [items] of the reply to the request for page [p] (none when the
    request fails or the body has no [items]). *)
Definition page_items (c : StackExchangeClient) (session : ClientSession)
    (tag in_title : string) (from_date p : Z) : list (gmap string value) :=
  match session (base_url c) (build_query_params c tag in_title from_date p 100)
  with
  | Ok r => default [] (items r)
  | Err _ => []
  end.

(** What the fetch of page [p] returns or raises, taken on its own. *)
Definition page_outcome (c : StackExchangeClient) (session : ClientSession)
    (tag in_title : string) (from_date n p : Z) : result (list loc * Z) :=
  match fetch_top_n_unanswered_questions_async c session tag in_title
          from_date p n 100 ∅
  with
  | Ok (a, _) => Ok a
  | Err e => Err e
  end.

(** The heap once the pages [ps] have been fetched: the dicts of those pages,
    each without its [answer_count]. *)
Definition fetched_heap (c : StackExchangeClient) (session : ClientSession)
    (tag in_title : string) (from_date : Z) (ps : list Z) (σ : heap) : Prop :=
  ∀ p i, σ !! (p, i) =
         if decide (p ∈ ps)
         then (delete "answer_count"
                 <$> page_items c session tag in_title from_date p) !! i
         else None.

(** The number of items of the pages [ps] that pass the filter. *)
Definition passing_count (c : StackExchangeClient) (session : ClientSession)
    (tag in_title : string) (from_date : Z) (ps : list Z) : nat :=
  sum_list_with
    (λ p, length (filter (λ q, unanswered q)
                    (page_items c session tag in_title from_date p))) ps.

(** The fetches of [pages] that fail, each with the exception it raises. *)
Definition failures (c : StackExchangeClient) (session : ClientSession)
    (tag in_title : string) (from_date n : Z) (pages : list Z)
  : list (Z * exception) :=
  omap (λ p, match page_outcome c session tag in_title from_date n p with
             | Err e => Some (p, e)
             | Ok _ => None
             end) pages.

(** The objects of the pages [ps] that pass the filter. *)
Definition passing_locs (c : StackExchangeClient) (session : ClientSession)
    (tag in_title : string) (from_date : Z) (ps : list Z) : list loc :=
  ps ≫= (λ p, unanswered_from p 0
                (page_items c session tag in_title from_date p)).

(** What holds of the running list [top] and the heap [σ] once the pages
    [ps] have been fetched and merged. *)
Definition merged (c : StackExchangeClient) (session : ClientSession)
    (tag in_title : string) (from_date n : Z) (ps : list Z)
    (top : list loc) (σ : heap) : Prop :=
  fetched_heap c session tag in_title from_date ps σ
  ∧ (∀ l, l ∈ top → l ∈ passing_locs c session tag in_title from_date ps)
  ∧ (0 ≤ n →
     Z.of_nat (length top)
     = Z.min n (Z.of_nat (passing_count c session tag in_title from_date ps)))
  ∧ (∃ qs, get_top_n_questions_by_view_count σ qs n = Ok top).


(** ** A sample remote service *)

(** A question with [views] views and, when given, an [answer_count]. *)
Definition sample_question (views : Z) (answers : option Z)
  : gmap string value :=
  <["view_count" := VInt views]>
    (match answers with
     | Some a => {["answer_count" := VInt a]}
     | None => ∅
     end).

(** Every page holds three questions: one with no answers, one with two
    answers and one without the field; the query matches [total] questions
    in all. *)
Definition sample_session (total : Z) : ClientSession :=
  λ _ q, Ok {| ok := true;
               error_message := None;
               error_id := None;
               items := Some [sample_question (10 * q_page q) (Some 0);
                              sample_question (10 * q_page q + 5) (Some 2);
                              sample_question (q_page q) None];
               total := Some total |}.

(** As [sample_session 300], but every page after the first is refused. *)
Definition refusing_session : ClientSession :=
  λ url q, if q_page q <=? 1 then sample_session 300 url q
           else Ok {| ok := false;
                      error_message := Some "too many requests";
                      error_id := Some 502;
                      items := None;
                      total := None |}.

(** A service that refuses every request and reports the [fromdate] it was
    asked for. *)
Definition echo_session : ClientSession :=
  λ _ q, Ok {| ok := false;
               error_message := Some (pretty (q_fromdate q));
               error_id := None;
               items := None;
               total := None |}.

(** Fetches complete in page order. *)
Definition in_page_order : Z → nat := Z.to_nat.

Definition sample_run (total batch_size n : Z)
  : option (list (list Z) * result (list loc * heap)) :=
  get_top_n_unanswered_questions_async 10 new_controller
    (sample_session total) in_page_order "python" "" 0 batch_size n.

(** The list and heap a run returned (empty if it returned none). *)
Definition returned (run : option (list (list Z) * result (list loc * heap)))
  : list loc * heap :=
  match run with
  | Some (_, Ok out) => out
  | _ => ([], ∅)
  end.

(** Merging two decorated lists, taking from the right one only an element
    with a strictly larger key: on lists in descending order this is what
    the stable sort makes of their concatenation. *)
Fixpoint smerge {A} (l1 : list (Z * A)) : list (Z * A) → list (Z * A) :=
  match l1 with
  | [] => λ l2, l2
  | x :: l1' =>
      fix aux (l2 : list (Z * A)) : list (Z * A) :=
        match l2 with
        | [] => x :: l1'
        | y :: l2' => if x.1 <? y.1 then y :: aux l2' else x :: smerge l1' l2
        end
  end.

(** * Properties *)

(** ** The stable descending sort *)

Section sorting.
Context {A : Type}.
Implicit Types (x y : Z * A) (l : list (Z * A)).

Lemma insert_desc_perm x l : insert_desc x l ≡ₚ x :: l.
Proof.
  induction l as [|y l IH]; simpl; [done|].
  destruct (x.1 <? y.1); [|done].
  rewrite IH. apply Permutation_swap.
Qed.

Lemma sorted_desc_perm l : sorted_desc l ≡ₚ l.
Proof.
  induction l as [|x l IH]; simpl; [done|].
  by rewrite insert_desc_perm, IH.
Qed.

Lemma insert_desc_sorted x l :
  StronglySorted desc l → StronglySorted desc (insert_desc x l).
Proof.
  induction 1 as [|y l Hl IH Hy]; simpl.
  - repeat constructor.
  - destruct (Z.ltb_spec x.1 y.1) as [Hlt|Hge].
    + constructor; [done|].
      rewrite insert_desc_perm. constructor; [unfold desc; lia|done].
    + constructor; [by constructor|].
      constructor; [done|].
      eapply Forall_impl; [exact Hy|]. unfold desc. intros z ?. lia.
Qed.

Lemma sorted_desc_sorted l : StronglySorted desc (sorted_desc l).
Proof.
  induction l; simpl; [constructor|by apply insert_desc_sorted].
Qed.

(** Stability: the elements of any one key keep their order. *)
Lemma insert_desc_filter_key k x l :
  filter (λ y, y.1 = k) (insert_desc x l) = filter (λ y, y.1 = k) (x :: l).
Proof.
  induction l as [|y l IH]; simpl; [done|].
  destruct (Z.ltb_spec x.1 y.1) as [Hlt|Hge]; [|done].
  rewrite !filter_cons in *.
  repeat case_decide; simplify_eq; try lia; by rewrite ?IH.
Qed.

Lemma sorted_desc_filter_key k l :
  filter (λ y, y.1 = k) (sorted_desc l) = filter (λ y, y.1 = k) l.
Proof.
  induction l as [|x l IH]; simpl; [done|].
  by rewrite insert_desc_filter_key, !filter_cons, IH.
Qed.

(** A list already in descending order is left as it is. *)
Lemma sorted_desc_id l : StronglySorted desc l → sorted_desc l = l.
Proof.
  induction 1 as [|x l Hl IH Hx]; simpl; [done|].
  rewrite IH. destruct Hx as [|y l' Hy _]; simpl; [done|].
  destruct (Z.ltb_spec x.1 y.1); [unfold desc in Hy; lia|done].
Qed.
End sorting.

(** ** Relative positions *)

Section before.
Context {A B : Type}.
Implicit Types (a b : A) (l k : list A).

Lemma before_cons a b x l :
  before a b (x :: l) ↔ (x = a ∧ b ∈ l) ∨ before a b l.
Proof.
  split.
  - intros ([|y l1] & l2 & l3 & Heq); simplify_eq/=.
    + left. split; [done|]. set_solver.
    + right. by exists l1, l2, l3.
  - intros [[-> Hb]|(l1 & l2 & l3 & ->)].
    + apply list_elem_of_split in Hb as (l2 & l3 & ->). by exists [], l2, l3.
    + by exists (x :: l1), l2, l3.
Qed.

Lemma before_sublist a b l k : l `sublist_of` k → before a b l → before a b k.
Proof.
  induction 1 as [|x l k Hs IH|x l k Hs IH]; intros Hb.
  - by destruct Hb as ([|??] & ? & ? & ?).
  - apply before_cons in Hb as [[-> Hb]|Hb]; apply before_cons.
    + left. split; [done|]. by eapply elem_of_sublist.
    + right. auto.
  - apply before_cons. right. auto.
Qed.

Lemma before_filter (P : A → Prop) `{!∀ x, Decision (P x)} a b l :
  before a b (filter P l) → before a b l.
Proof. apply before_sublist, sublist_filter. Qed.

Lemma before_filter_2 (P : A → Prop) `{!∀ x, Decision (P x)} a b l :
  P a → P b → before a b l → before a b (filter P l).
Proof.
  intros Ha Hb (l1 & l2 & l3 & ->).
  exists (filter P l1), (filter P l2), (filter P l3).
  rewrite filter_app, filter_cons_True, filter_app, filter_cons_True; done.
Qed.

Lemma before_prefix a b l k : l `prefix_of` k → before a b l → before a b k.
Proof.
  intros [k' ->] (l1 & l2 & l3 & ->). exists l1, l2, (l3 ++ k').
  rewrite <-app_assoc. simpl. by rewrite <-app_assoc.
Qed.

Lemma before_fmap (f : A → B) a b l :
  before a b l → before (f a) (f b) (f <$> l).
Proof.
  intros (l1 & l2 & l3 & ->). exists (f <$> l1), (f <$> l2), (f <$> l3).
  by rewrite !fmap_app, !fmap_cons, !fmap_app.
Qed.

Lemma before_fmap_inv (f : A → B) (a' b' : B) l :
  before a' b' (f <$> l) → ∃ a b, f a = a' ∧ f b = b' ∧ before a b l.
Proof.
  intros (k1 & k2 & k3 & Heq).
  apply fmap_app_inv in Heq as (l1 & r & -> & Hr & ->).
  destruct r as [|a r]; [done|]. injection Hr as -> Hr.
  symmetry in Hr. apply fmap_app_inv in Hr as (l2 & r' & -> & Hr' & ->).
  destruct r' as [|b r']; [done|]. injection Hr' as -> ->.
  exists a, b. split_and!; [done..|]. by exists l1, l2, r'.
Qed.
End before.

(** ** TopNSelector: [get_top_n_questions_by_view_count] *)


Lemma StronglySorted_prefix {A} (R : relation A) (l k : list A) :
  l `prefix_of` k → StronglySorted R k → StronglySorted R l.
Proof. intros [k' ->]. apply StronglySorted_app_1_l. Qed.

Lemma StronglySorted_fmap_Forall {A B} (R : relation A) (R' : relation B)
    (P : A → Prop) (f : A → B) (l : list A) :
  (∀ x y, P x → P y → R x y → R' (f x) (f y)) →
  Forall P l → StronglySorted R l → StronglySorted R' (f <$> l).
Proof.
  intros HR HP Hl. induction Hl as [|x l Hl IH Hx]; simpl; [constructor|].
  apply Forall_cons in HP as [Hpx HP]. constructor; [auto|].
  rewrite Forall_fmap. rewrite Forall_forall in *. intros y Hy. simpl. auto.
Qed.

Lemma slice_to_prefix {A} n (l : list A) : slice_to n l `prefix_of` l.
Proof. unfold slice_to. destruct (0 <=? n); apply prefix_take. Qed.

Lemma slice_to_nonneg {A} n (l : list A) :
  0 ≤ n → slice_to n l = take (Z.to_nat n) l.
Proof. intros Hn. unfold slice_to. by destruct (Z.leb_spec 0 n); [|lia]. Qed.

Lemma slice_to_length {A} n (l : list A) :
  0 ≤ n → Z.of_nat (length (slice_to n l)) = Z.min n (Z.of_nat (length l)).
Proof. intros Hn. rewrite slice_to_nonneg, length_take by done. lia. Qed.

Lemma slice_to_id {A} n (l : list A) :
  Z.of_nat (length l) ≤ n → slice_to n l = l.
Proof.
  intros Hn. rewrite slice_to_nonneg by lia. apply take_ge. lia.
Qed.

Lemma decorate_Ok σ qs ks :
  decorate σ qs = Ok ks →
  snd <$> ks = qs ∧ Forall (λ kl, view_count σ kl.2 = Ok kl.1) ks.
Proof.
  revert ks. induction qs as [|l qs IH]; intros ks Hd; simpl in Hd.
  - by simplify_eq.
  - destruct (view_count σ l) as [k|] eqn:Hk; [|done].
    destruct (decorate σ qs) as [ks'|]; [|done]. simplify_eq.
    destruct (IH ks' eq_refl) as [<- Hall]. split; [done|].
    by constructor.
Qed.

Lemma decorate_fmap σ (ks : list (Z * loc)) :
  Forall (λ kl, view_count σ kl.2 = Ok kl.1) ks →
  decorate σ (snd <$> ks) = Ok ks.
Proof.
  induction 1 as [|[k l] ks Hk _ IH]; [done|].
  rewrite fmap_cons. cbn [decorate snd fst] in *. by rewrite Hk, IH.
Qed.

Lemma decorate_prefix σ qs qs' ks :
  decorate σ qs = Ok ks → qs' `prefix_of` qs →
  ∃ ks', decorate σ qs' = Ok ks' ∧ ks' `prefix_of` ks.
Proof.
  intros Hd [r ->]. apply decorate_Ok in Hd as [Hsnd Hall].
  apply fmap_app_inv in Hsnd as (k1 & k2 & -> & -> & ->).
  exists k1. split; [|by exists k2].
  apply decorate_fmap. by apply Forall_app in Hall as [? _].
Qed.

(** What the selector returns: a slice of a permutation of its input that is
    in descending rank order and keeps equal-ranked elements in input
    order. *)
Lemma get_top_n_spec σ qs n res :
  get_top_n_questions_by_view_count σ qs n = Ok res →
  ∃ s, s ≡ₚ qs
     ∧ StronglySorted (rank_ge σ) s
     ∧ (∀ a b, before a b s → view_count σ a = view_count σ b →
               before a b qs)
     ∧ res = slice_to n s.
Proof.
  unfold get_top_n_questions_by_view_count.
  destruct (decorate σ qs) as [ks|] eqn:Hd; [|done].
  intros [= <-]. apply decorate_Ok in Hd as [<- Hall].
  assert (Forall (λ kl, view_count σ kl.2 = Ok kl.1) (sorted_desc ks)) as Hall'.
  { by rewrite sorted_desc_perm. }
  exists (snd <$> sorted_desc ks). split_and!; [| | |done].
  - by rewrite sorted_desc_perm.
  - eapply StronglySorted_fmap_Forall; [|exact Hall'|apply sorted_desc_sorted].
    intros [ka a] [kb b] Ha Hb Hab. by exists ka, kb.
  - intros a b Hbef Hkey.
    apply before_fmap_inv in Hbef as ([ka a'] & [kb b'] & <- & <- & Hbef).
    assert ((ka, a') ∈ sorted_desc ks ∧ (kb, b') ∈ sorted_desc ks) as [Ha Hb].
    { destruct Hbef as (l1 & l2 & l3 & ->). set_solver. }
    rewrite Forall_forall in Hall'.
    apply Hall' in Ha, Hb. simpl in *. rewrite Ha, Hb in Hkey.
    injection Hkey as ->.
    apply (before_fmap snd (kb, a') (kb, b')).
    apply (before_filter (λ y, y.1 = kb)).
    rewrite <-sorted_desc_filter_key. by apply before_filter_2.
Qed.


Lemma get_top_n_length σ qs n res :
  0 ≤ n → get_top_n_questions_by_view_count σ qs n = Ok res →
  Z.of_nat (length res) = Z.min n (Z.of_nat (length qs)).
Proof.
  intros Hn (s & Hp & _ & _ & ->)%get_top_n_spec.
  by rewrite slice_to_length, Hp.
Qed.

Lemma get_top_n_subseteq σ qs n res :
  get_top_n_questions_by_view_count σ qs n = Ok res → res ⊆ qs.
Proof.
  intros (s & Hp & _ & _ & ->)%get_top_n_spec l Hl.
  rewrite <-Hp. by eapply elem_of_prefix; [|apply slice_to_prefix].
Qed.

(** Re-merging a list the selector has produced, with nothing new, gives the
    list back. *)
Lemma get_top_n_again σ qs n res :
  get_top_n_questions_by_view_count σ qs n = Ok res →
  Z.of_nat (length res) ≤ n →
  get_top_n_questions_by_view_count σ res n = Ok res.
Proof.
  unfold get_top_n_questions_by_view_count.
  destruct (decorate σ qs) as [ks|] eqn:Hd; [|done].
  intros [= <-] Hlen. apply decorate_Ok in Hd as [_ Hall].
  assert (decorate σ (snd <$> sorted_desc ks) = Ok (sorted_desc ks)) as Hd.
  { apply decorate_fmap. by rewrite sorted_desc_perm. }
  destruct (decorate_prefix _ _ _ _ Hd (slice_to_prefix n _))
    as (ks' & Hd' & Hpre).
  rewrite Hd'. apply decorate_Ok in Hd' as [Hsnd _].
  rewrite sorted_desc_id, Hsnd.
  - by rewrite slice_to_id.
  - eapply StronglySorted_prefix; [done|apply sorted_desc_sorted].
Qed.

(** ** The filter: [is_answered] and [remove_answered_questions] *)

Lemma is_answered_inv l σ b σ' :
  is_answered l σ = Ok (b, σ') →
  ∃ q z, σ !! l = Some q
       ∧ default (VInt 0) (q !! "answer_count") = VInt z
       ∧ b = (0 <? z)
       ∧ σ' = <[l := delete "answer_count" q]> σ.
Proof.
  unfold is_answered, dict_pop. destruct (σ !! l) as [q|]; [|done].
  destruct (default _ _) as [z|] eqn:Hv; [|done].
  intros [= <- <-]. by exists q, z.
Qed.

(** An object without the field: not answered, and nothing is removed. *)
Lemma is_answered_absent l σ q :
  σ !! l = Some q → q !! "answer_count" = None →
  is_answered l σ = Ok (false, σ).
Proof.
  intros Hl Hq. unfold is_answered, dict_pop. rewrite Hl, Hq. simpl.
  by rewrite delete_id, insert_id.
Qed.

Lemma is_answered_int l σ q z :
  σ !! l = Some q → q !! "answer_count" = Some (VInt z) →
  is_answered l σ = Ok (0 <? z, <[l := delete "answer_count" q]> σ).
Proof.
  intros Hl Hq. unfold is_answered, dict_pop. by rewrite Hl, Hq.
Qed.

Lemma is_answered_str l σ q s :
  σ !! l = Some q → q !! "answer_count" = Some (VStr s) →
  is_answered l σ = Err TypeError.
Proof.
  intros Hl Hq. unfold is_answered, dict_pop. by rewrite Hl, Hq.
Qed.

(** The filter leaves an object without the field in the list, untouched. *)
Lemma remove_answered_keeps_absent questions σ kept σ' l q :
  remove_answered_questions questions σ = Ok (kept, σ') →
  σ !! l = Some q → q !! "answer_count" = None →
  σ' !! l = Some q ∧ (l ∈ questions → l ∈ kept).
Proof.
  revert σ kept σ'.
  induction questions as [|l' qs IH]; intros σ kept σ' Hrun Hl Hq.
  - injection Hrun as <- <-. split; [done|]. by intros ?%elem_of_nil.
  - cbn [remove_answered_questions] in Hrun. unfold bind at 1 in Hrun.
    destruct (is_answered l' σ) as [[b σ1]|] eqn:Hans; [|done].
    unfold bind at 1 in Hrun.
    destruct (remove_answered_questions qs σ1) as [[kept' σ2]|] eqn:Hrest;
      [|done].
    injection Hrun as <- <-.
    assert (σ1 !! l = Some q ∧ (l' = l → b = false)) as [Hl1 Hb].
    { destruct (decide (l' = l)) as [->|Hne].
      - rewrite (is_answered_absent _ _ _ Hl Hq) in Hans.
        by injection Hans as <- <-.
      - apply is_answered_inv in Hans as (q' & z & _ & _ & _ & ->).
        by rewrite lookup_insert_ne. }
    destruct (IH _ _ _ Hrest Hl1 Hq) as [Hl2 Hin]. split; [done|].
    intros [->|Hin']%elem_of_cons.
    + rewrite Hb by done. apply elem_of_cons. by left.
    + destruct b; [auto|]. apply elem_of_cons. right. auto.
Qed.

(** ** Decoding a page *)

Lemma alloc_from_lookup page_number i qs σ p j :
  alloc_from page_number i qs σ !! (p, j) =
  if decide (p = page_number ∧ (i ≤ j < i + length qs)%nat)
  then qs !! (j - i)%nat else σ !! (p, j).
Proof.
  revert i. induction qs as [|q qs IH]; intros i; simpl.
  - case_decide; [lia|done].
  - destruct (decide ((page_number, i) = (p, j))) as [[= -> ->]|Hne].
    + rewrite lookup_insert_eq, decide_True by lia.
      by rewrite Nat.sub_diag.
    + rewrite lookup_insert_ne, IH by done.
      destruct (decide (p = page_number ∧ (S i ≤ j < S i + length qs)%nat))
        as [[-> Hj]|Hn].
      * rewrite decide_True by lia.
        by replace (j - i)%nat with (S (j - S i)) by lia.
      * rewrite decide_False; [done|]. intros [-> Hj]. apply Hn.
        split; [done|]. assert (i ≠ j) by (by intros ->). lia.
Qed.

Lemma alloc_from_insert page_number i j q qs σ :
  (j < i)%nat →
  alloc_from page_number i qs (<[(page_number, j) := q]> σ)
  = <[(page_number, j) := q]> (alloc_from page_number i qs σ).
Proof.
  revert i. induction qs as [|q' qs IH]; intros i Hji; simpl; [done|].
  rewrite IH by lia. apply insert_insert_ne. intros [= ?]. lia.
Qed.

Lemma is_answered_fresh l q σ :
  is_answered l (<[l := q]> σ)
  = if count_ok q
    then Ok (negb (unanswered q), <[l := delete "answer_count" q]> σ)
    else Err TypeError.
Proof.
  unfold is_answered, dict_pop, count_ok, unanswered.
  rewrite lookup_insert_eq.
  destruct (q !! "answer_count") as [[z|s]|]; simpl;
    by rewrite ?insert_insert_eq, ?negb_involutive.
Qed.

(** The filter run on the freshly decoded items of a page. *)
Lemma remove_answered_fresh page_number i qs σ :
  remove_answered_questions ((λ j, (page_number, j)) <$> seq i (length qs))
    (alloc_from page_number i qs σ)
  = if forallb count_ok qs
    then Ok (unanswered_from page_number i qs,
             alloc_from page_number i (delete "answer_count" <$> qs) σ)
    else Err TypeError.
Proof.
  revert i σ. induction qs as [|q qs IH]; intros i σ; [done|].
  cbn [length seq fmap list_fmap remove_answered_questions alloc_from forallb
       unanswered_from].
  unfold bind at 1. rewrite is_answered_fresh.
  destruct (count_ok q); [|done]. cbn [andb].
  unfold bind at 1.
  rewrite <-alloc_from_insert by lia. rewrite IH.
  destruct (forallb count_ok qs); [|done].
  rewrite alloc_from_insert by lia.
  unfold ret. by destruct (unanswered q).
Qed.

Lemma unanswered_from_length page_number i qs :
  length (unanswered_from page_number i qs)
  = length (filter (λ q, unanswered q) qs).
Proof.
  revert i. induction qs as [|q qs IH]; intros i; simpl; [done|].
  rewrite filter_cons. destruct (unanswered q); simpl; by rewrite IH.
Qed.

Lemma elem_of_unanswered_from page_number i qs p j :
  (p, j) ∈ unanswered_from page_number i qs ↔
  p = page_number ∧ (i ≤ j)%nat
  ∧ ∃ q, qs !! (j - i)%nat = Some q ∧ unanswered q = true.
Proof.
  revert i. induction qs as [|q qs IH]; intros i; simpl.
  - split; [by intros ?%elem_of_nil|]. by intros (_ & _ & ? & ? & _).
  - assert ((p, j) ∈ unanswered_from page_number (S i) qs ↔
            p = page_number ∧ (i < j)%nat
            ∧ ∃ q', (q :: qs) !! (j - i)%nat = Some q' ∧ unanswered q' = true)
      as IH'.
    { rewrite IH. split.
      - intros (-> & Hj & q' & Hq' & Hu). split_and!; [done|lia|].
        exists q'. by replace (j - i)%nat with (S (j - S i)) by lia.
      - intros (-> & Hj & q' & Hq' & Hu). split_and!; [done|lia|].
        exists q'. by replace (j - i)%nat with (S (j - S i)) in Hq' by lia. }
    destruct (unanswered q) eqn:Hq.
    + rewrite elem_of_cons, IH'. split.
      * intros [[= -> ->]|(-> & Hj & Hex)].
        -- split_and!; [done|lia|]. exists q. by rewrite Nat.sub_diag.
        -- split_and!; [done|lia|done].
      * intros (-> & Hj & Hex). destruct (decide (i = j)) as [->|Hne].
        -- by left.
        -- right. split_and!; [done|lia|done].
    + rewrite IH'. split.
      * intros (-> & Hj & Hex). split_and!; [done|lia|done].
      * intros (-> & Hj & q' & Hq' & Hu). split_and!; [done| |by exists q'].
        destruct (decide (i = j)) as [->|Hne]; [|lia].
        rewrite Nat.sub_diag in Hq'. simpl in Hq'. congruence.
Qed.

(** ** PageFetcher: [fetch_top_n_unanswered_questions_async] *)

Lemma decorate_ext σ1 σ2 qs :
  (∀ l, l ∈ qs → σ1 !! l = σ2 !! l) → decorate σ1 qs = decorate σ2 qs.
Proof.
  induction qs as [|l qs IH]; intros Hext; simpl; [done|].
  unfold view_count. rewrite (Hext l) by set_solver.
  rewrite IH; [done|]. intros l' ?. apply Hext. set_solver.
Qed.

Lemma get_top_n_ext σ1 σ2 qs n :
  (∀ l, l ∈ qs → σ1 !! l = σ2 !! l) →
  get_top_n_questions_by_view_count σ1 qs n
  = get_top_n_questions_by_view_count σ2 qs n.
Proof.
  intros Hext. unfold get_top_n_questions_by_view_count.
  by rewrite (decorate_ext σ1 σ2).
Qed.

Section fetch.
Variables (c : StackExchangeClient) (session : ClientSession).
Variables (tag in_title : string) (from_date n : Z).

(** The fetch, step by step. *)
Lemma fetch_unfold page_number page_size σ :
  fetch_top_n_unanswered_questions_async c session tag in_title from_date
    page_number n page_size σ
  = match session (base_url c)
            (build_query_params c tag in_title from_date page_number
               page_size)
    with
    | Err e => Err e
    | Ok r =>
        if negb (ok r) then
          Err (Exception (fetch_error_text page_number
                 (default "Something went wrong." (error_message r))
                 (default 500 (error_id r))))
        else
          let qs := default [] (items r) in
          if forallb count_ok qs then
            let σ' := alloc_from page_number 0
                        (delete "answer_count" <$> qs) σ in
            match get_top_n_questions_by_view_count σ'
                    (unanswered_from page_number 0 qs) n
            with
            | Err e => Err e
            | Ok top =>
                if page_size =? 0 then Err ZeroDivisionError
                else Ok ((top,
                          ceil_div (default 0 (total r)) page_size
                          - page_number), σ')
            end
          else Err TypeError
    end.
Proof.
  unfold fetch_top_n_unanswered_questions_async.
  unfold bind at 1. unfold lift.
  destruct (session _ _) as [r|e]; [|done].
  destruct (ok r); simpl; [|done].
  unfold bind at 1. unfold decode_items, item_locs.
  unfold bind at 1. rewrite remove_answered_fresh.
  destruct (forallb count_ok _); [|done].
  unfold bind at 1. unfold read, lift.
  destruct (get_top_n_questions_by_view_count _ _ _); [|done].
  by destruct (page_size =? 0).
Qed.

Lemma get_top_n_alloc page_number qs σ :
  get_top_n_questions_by_view_count
    (alloc_from page_number 0 (delete "answer_count" <$> qs) σ)
    (unanswered_from page_number 0 qs) n
  = get_top_n_questions_by_view_count
      (alloc_from page_number 0 (delete "answer_count" <$> qs) ∅)
      (unanswered_from page_number 0 qs) n.
Proof.
  apply get_top_n_ext. intros [p j] Hl.
  apply elem_of_unanswered_from in Hl as (-> & _ & q & Hq & _).
  apply lookup_lt_Some in Hq.
  rewrite !alloc_from_lookup, !decide_True; [done|..];
    rewrite length_fmap; split; (done || lia).
Qed.

(** The outcome of a fetch does not depend on the heap it runs on, and its
    effect on the heap is the allocation of the page's dicts, each without
    its [answer_count]. *)
Lemma fetch_page_outcome page_number σ :
  fetch_top_n_unanswered_questions_async c session tag in_title from_date
    page_number n 100 σ
  = match page_outcome c session tag in_title from_date n page_number with
    | Ok a =>
        Ok (a, alloc_from page_number 0
                 (delete "answer_count"
                    <$> page_items c session tag in_title from_date
                          page_number) σ)
    | Err e => Err e
    end.
Proof.
  unfold page_outcome, page_items. rewrite !fetch_unfold.
  destruct (session _ _) as [r|e]; [|done].
  destruct (negb (ok r)); [done|]. cbn zeta.
  destruct (forallb count_ok _); [|done].
  rewrite get_top_n_alloc.
  by destruct (get_top_n_questions_by_view_count _ _ _).
Qed.
End fetch.

(** ** BatchScheduler: the drain loop *)

Lemma current_page_count_bounds r B :
  1 ≤ B → 0 < r →
  1 ≤ current_page_count r B ≤ B
  ∧ current_page_count r B ≤ r
  ∧ (r - current_page_count r B) mod B = 0.
Proof.
  intros HB Hr. unfold current_page_count.
  pose proof (Z.mod_pos_bound r B ltac:(lia)) as Hm.
  pose proof (Z.div_mod r B ltac:(lia)) as Hdm.
  destruct (Z.eqb_spec (r mod B) 0) as [H0|Hn0].
  - split_and!; [lia..| |].
    + assert (0 < r / B) by nia. nia.
    + rewrite <-(Z.mul_1_l B) at 1. rewrite <-Zminus_mod_idemp_r.
      rewrite Z.mod_mul by lia. by rewrite Z.sub_0_r.
  - split_and!; [lia..| |].
    + assert (0 ≤ r / B) by (apply Z.div_pos; lia). nia.
    + rewrite Zminus_mod_idemp_r, Z.sub_diag. apply Z.mod_0_l. lia.
Qed.

Lemma current_page_count_multiple r B :
  1 ≤ B → 0 < r → r mod B = 0 → current_page_count r B = B.
Proof.
  intros _ _ Hm. unfold current_page_count. by rewrite Hm.
Qed.

Lemma group_pages_length page_number w :
  length (group_pages page_number w) = Z.to_nat w.
Proof. unfold group_pages. by rewrite length_fmap, length_seq. Qed.

Lemma group_pages_lookup page_number w i p :
  group_pages page_number w !! i = Some p → p = page_number + 1 + Z.of_nat i.
Proof.
  unfold group_pages. rewrite list_lookup_fmap.
  intros [j [Hj ->]]%fmap_Some. apply lookup_seq in Hj as [-> _]. done.
Qed.

Section drain.
Variables (self : StackOverflowController) (session : ClientSession).
Variables (arrival : Z → nat) (tag in_title : string).
Variables (from_date batch_size n : Z).

Local Abbreviation drain' fuel :=
  (drain fuel self session arrival tag in_title from_date batch_size n).
Local Abbreviation fetch' :=
  (λ p, fetch_top_n_unanswered_questions_async (client self) session tag
          in_title from_date p n 100).

Lemma drain_done fuel page_number r top σ :
  r ≤ 0 → drain' fuel page_number r top σ = Some ([], Ok (top, σ)).
Proof.
  intros Hr. destruct fuel; simpl;
    by destruct (Z.ltb_spec 0 r); [lia|].
Qed.

Lemma drain_step fuel page_number r top σ :
  0 < r → batch_size ≠ 0 →
  drain' (S fuel) page_number r top σ =
  let current := current_page_count r batch_size in
  let pages := group_pages page_number current in
  match gather arrival fetch' pages σ with
  | Err e => Some ([pages], Err e)
  | Ok (coroutine_result, σ') =>
      match fold_group σ' top coroutine_result n with
      | Err e => Some ([pages], Err e)
      | Ok top' =>
          match drain' fuel (page_number + Z.of_nat (length pages))
                  (r - current) top' σ'
          with
          | None => None
          | Some (groups, out) => Some (pages :: groups, out)
          end
      end
  end.
Proof.
  intros Hr HB. cbn [drain].
  destruct (Z.ltb_spec 0 r); [|lia].
  by destruct (Z.eqb_spec batch_size 0).
Qed.

(** The groups requested by the loop: the first has the width computed
    from the remaining page count, every later one the full batch size;
    the pages are numbered consecutively. *)
Lemma drain_groups fuel page_number r top σ groups out :
  1 ≤ batch_size → 0 < r →
  drain' fuel page_number r top σ = Some (groups, out) →
  (∃ g rest, groups = g :: rest
     ∧ Z.of_nat (length g) = current_page_count r batch_size
     ∧ Forall (λ g', Z.of_nat (length g') = batch_size) rest)
  ∧ (∀ i p, concat groups !! i = Some p → p = page_number + 1 + Z.of_nat i)
  ∧ (is_ok out = true → Z.of_nat (length (concat groups)) = r).
Proof.
  intros HB. revert page_number r top σ groups out.
  induction fuel as [|fuel IH]; intros page_number r top σ groups out Hr Hrun.
  { simpl in Hrun. by destruct (Z.ltb_spec 0 r); [|lia]. }
  rewrite drain_step in Hrun by lia. cbn zeta in Hrun.
  destruct (current_page_count_bounds r batch_size HB Hr) as (Hw & Hwr & Hmod).
  set (w := current_page_count r batch_size) in *.
  assert (Z.of_nat (length (group_pages page_number w)) = w) as Hlen.
  { rewrite group_pages_length. lia. }
  assert (∀ i p, concat [group_pages page_number w] !! i = Some p →
                 p = page_number + 1 + Z.of_nat i) as Hone.
  { intros i p. simpl. rewrite app_nil_r. apply group_pages_lookup. }
  destruct (gather _ _ _ _) as [[results σ']|e].
  2:{ injection Hrun as <- <-. split_and!; [|done..].
      eexists _, []. by split_and!. }
  destruct (fold_group _ _ _ _) as [top'|e].
  2:{ injection Hrun as <- <-. split_and!; [|done..].
      eexists _, []. by split_and!. }
  destruct (drain' fuel _ _ _ _) as [[groups' out']|] eqn:Hrec; [|done].
  injection Hrun as <- <-.
  destruct (decide (r - w ≤ 0)) as [Hz|Hpos].
  - rewrite drain_done in Hrec by done. injection Hrec as <- <-.
    split_and!; [|done|].
    + eexists _, []. by split_and!.
    + intros _. simpl. rewrite app_nil_r. lia.
  - apply IH in Hrec as ((g & rest & -> & Hg & Hrest) & Hcons & Htot);
      [|lia].
    rewrite current_page_count_multiple in Hg by (done || lia).
    split_and!.
    + eexists _, (g :: rest). split_and!; [done..|]. by constructor.
    + intros i p. cbn [concat]. intros Hi.
      apply lookup_app_Some in Hi as [Hi|[Hge Hi]].
      * by apply group_pages_lookup in Hi.
      * apply Hcons in Hi. apply Nat2Z.inj_le in Hge. lia.
    + intros Hok. specialize (Htot Hok).
      change (concat (group_pages page_number w :: g :: rest))
        with (group_pages page_number w ++ concat (g :: rest)).
      rewrite length_app. lia.
Qed.

(** For a batch size of at least 1 the loop finishes. *)
Lemma drain_terminates fuel page_number r top σ :
  1 ≤ batch_size → (Z.to_nat r ≤ fuel)%nat →
  ∃ groups out, drain' fuel page_number r top σ = Some (groups, out).
Proof.
  intros HB. revert page_number r top σ.
  induction fuel as [|fuel IH]; intros page_number r top σ Hfuel.
  { rewrite drain_done by lia. eauto. }
  destruct (decide (r ≤ 0)) as [Hz|Hpos].
  { rewrite drain_done by lia. eauto. }
  rewrite drain_step by lia. cbn zeta.
  destruct (current_page_count_bounds r batch_size HB ltac:(lia))
    as (Hw & Hwr & Hmod).
  destruct (gather _ _ _ _) as [[results σ']|e]; [|eauto].
  destruct (fold_group _ _ _ _) as [top'|e]; [|eauto].
  edestruct (IH (page_number
                 + Z.of_nat (length (group_pages page_number
                      (current_page_count r batch_size))))
               (r - current_page_count r batch_size) top' σ')
    as (groups & out & ->); [lia|eauto].
Qed.
End drain.

(** ** One group: [gather] and the fold of its results *)

Lemma first_raised_spec arrival x errs :
  first_raised arrival x errs ∈ x :: errs
  ∧ ∀ y, y ∈ x :: errs →
         (arrival (first_raised arrival x errs).1 ≤ arrival y.1)%nat.
Proof.
  revert x. induction errs as [|z errs IH]; intros x; simpl.
  - split; [by apply list_elem_of_singleton|].
    by intros y ->%list_elem_of_singleton.
  - destruct (IH (if Nat.ltb (arrival z.1) (arrival x.1) then z else x))
      as [Hin Hmin]. clear IH.
    assert (∀ y, y = x ∨ y = z ∨ y ∈ errs →
              (arrival (first_raised arrival
                 (if Nat.ltb (arrival z.1) (arrival x.1) then z else x)
                 errs).1 ≤ arrival y.1)%nat) as Hmin'.
    { intros y Hy.
      destruct (Nat.ltb_spec (arrival z.1) (arrival x.1)) as [Hlt|Hge].
      - destruct Hy as [->|[->|Hy]].
        + etrans; [apply (Hmin z), elem_of_cons; by left|lia].
        + apply Hmin, elem_of_cons. by left.
        + apply Hmin, elem_of_cons. by right.
      - destruct Hy as [->|[->|Hy]].
        + apply Hmin, elem_of_cons. by left.
        + etrans; [apply (Hmin x), elem_of_cons; by left|lia].
        + apply Hmin, elem_of_cons. by right. }
    split.
    + rewrite !elem_of_cons in *. destruct (Nat.ltb _ _); tauto.
    + intros y Hy. apply Hmin'. rewrite !elem_of_cons in Hy. tauto.
Qed.

Section group.
Variables (self : StackOverflowController) (session : ClientSession).
Variables (tag in_title : string).
Variables (from_date n : Z).

Local Abbreviation fetch' :=
  (λ p, fetch_top_n_unanswered_questions_async (client self) session tag
          in_title from_date p n 100).
Local Abbreviation outcome :=
  (page_outcome (client self) session tag in_title from_date n).
Local Abbreviation items_of :=
  (page_items (client self) session tag in_title from_date).
Local Abbreviation fetched :=
  (fetched_heap (client self) session tag in_title from_date).
Local Abbreviation failing :=
  (failures (client self) session tag in_title from_date n).

Lemma fetched_heap_proper ps ps' σ :
  (∀ p, p ∈ ps ↔ p ∈ ps') → fetched ps σ → fetched ps' σ.
Proof.
  intros Heq Hσ p i. rewrite Hσ.
  destruct (decide (p ∈ ps)) as [Hp|Hp], (decide (p ∈ ps')) as [Hp'|Hp'];
    try done; [by apply Heq in Hp|by apply Heq in Hp'].
Qed.

Lemma fetched_heap_alloc p ps σ :
  fetched ps σ →
  fetched (p :: ps)
    (alloc_from p 0 (delete "answer_count" <$> items_of p) σ).
Proof.
  intros Hσ p' i. rewrite alloc_from_lookup, Hσ.
  destruct (decide (p' = p)) as [->|Hne].
  - rewrite (decide_True (P := p ∈ p :: ps)) by set_solver.
    case_decide as Hi; [by rewrite Nat.sub_0_r|].
    assert ((delete "answer_count" <$> items_of p) !! i = None) as Hnone.
    { apply lookup_ge_None. lia. }
    rewrite Hnone. by case_decide.
  - rewrite decide_False by naive_solver.
    destruct (decide (p' ∈ ps)), (decide (p' ∈ p :: ps)); set_solver.
Qed.

Lemma run_fetches_failures pages σ :
  (run_fetches fetch' pages σ).1.1 = failing pages.
Proof.
  revert σ. induction pages as [|p pages IH]; intros σ; [done|].
  cbn [run_fetches]. unfold failures. cbn [omap list_omap].
  rewrite fetch_page_outcome.
  destruct (outcome p) as [a|e].
  - specialize (IH (alloc_from p 0 (delete "answer_count" <$> items_of p) σ)).
    destruct (run_fetches _ _ _) as [[errs oks] σ'']. exact IH.
  - specialize (IH σ).
    destruct (run_fetches _ _ _) as [[errs oks] σ'']. simpl in *.
    by rewrite IH.
Qed.

Lemma run_fetches_Ok pages σ oks σ' :
  run_fetches fetch' pages σ = ([], oks, σ') →
  Forall2 (λ p a, outcome p = Ok a) pages oks
  ∧ (∀ ps, fetched ps σ → fetched (pages ++ ps) σ')
  ∧ (pages = [] → σ' = σ).
Proof.
  revert σ oks. induction pages as [|p pages IH]; intros σ oks Hrun.
  - injection Hrun as <- <-. by split_and!.
  - cbn [run_fetches] in Hrun. rewrite fetch_page_outcome in Hrun.
    destruct (outcome p) as [a|e] eqn:Hp.
    + destruct (run_fetches _ _ _) as [[errs oks'] σ''] eqn:Hrest.
      injection Hrun as -> <- ->.
      apply IH in Hrest as (Hall & Hheap & _). split_and!; [|
        |done].
      * by constructor.
      * intros ps Hσ. eapply fetched_heap_proper;
          [|apply (Hheap (p :: ps)), fetched_heap_alloc, Hσ].
        set_solver.
    + by destruct (run_fetches _ _ _) as [[errs oks'] σ''].
Qed.

Variable (arrival : Z → nat).

Lemma gather_Ok pages σ results σ' :
  gather arrival fetch' pages σ = Ok (results, σ') →
  Forall2 (λ p a, outcome p = Ok a) pages results
  ∧ (∀ ps, fetched ps σ → fetched (pages ++ ps) σ')
  ∧ (pages = [] → σ' = σ).
Proof.
  unfold gather.
  destruct (run_fetches _ _ _) as [[[|x errs] oks] σ''] eqn:Hrun; [|done].
  intros [= <- <-]. by apply run_fetches_Ok.
Qed.

(** [gather] raises exactly when some fetch of the group fails, and then
    it raises the exception of the failing fetch that completes first. *)
Lemma gather_Err pages σ e :
  gather arrival fetch' pages σ = Err e ↔
  ∃ x errs, failing pages = x :: errs ∧ e = (first_raised arrival x errs).2.
Proof.
  unfold gather. pose proof (run_fetches_failures pages σ) as Hf.
  destruct (run_fetches _ _ _) as [[[|x errs] oks] σ'']; simpl in Hf;
    rewrite <-Hf.
  - split; [done|]. by intros (? & ? & ? & _).
  - split.
    + intros [= <-]. by exists x, errs.
    + by intros (? & ? & [= <- <-] & ->).
Qed.

Lemma elem_of_failures pages p e :
  (p, e) ∈ failing pages ↔ p ∈ pages ∧ outcome p = Err e.
Proof.
  unfold failures. rewrite list_elem_of_omap. split.
  - intros (p' & Hp' & Hsome).
    destruct (outcome p') as [a|e'] eqn:Ho; [done|].
    by injection Hsome as -> ->.
  - intros [Hp Ho]. exists p. by rewrite Ho.
Qed.
End group.

(** ** The running top-N list *)

Section merged.
Variables (self : StackOverflowController) (session : ClientSession).
Variables (tag in_title : string).
Variables (from_date n : Z).

Local Abbreviation fetch' :=
  (λ p, fetch_top_n_unanswered_questions_async (client self) session tag
          in_title from_date p n 100).
Local Abbreviation outcome :=
  (page_outcome (client self) session tag in_title from_date n).
Local Abbreviation items_of :=
  (page_items (client self) session tag in_title from_date).
Local Abbreviation fetched :=
  (fetched_heap (client self) session tag in_title from_date).
Local Abbreviation passing :=
  (passing_locs (client self) session tag in_title from_date).
Local Abbreviation count :=
  (passing_count (client self) session tag in_title from_date).
Local Abbreviation inv :=
  (merged (client self) session tag in_title from_date n).

Lemma passing_count_app ps ps' : count (ps ++ ps') = (count ps + count ps')%nat.
Proof. apply sum_list_with_app. Qed.

Lemma passing_locs_app ps ps' l :
  l ∈ passing (ps ++ ps') ↔ l ∈ passing ps ∨ l ∈ passing ps'.
Proof. unfold passing_locs. rewrite bind_app. apply elem_of_app. Qed.

Lemma page_outcome_Ok p top rem :
  outcome p = Ok (top, rem) →
  ∃ r, session (base_url (client self))
         (build_query_params (client self) tag in_title from_date p 100)
       = Ok r
     ∧ ok r = true
     ∧ forallb count_ok (items_of p) = true
     ∧ get_top_n_questions_by_view_count
         (alloc_from p 0 (delete "answer_count" <$> items_of p) ∅)
         (unanswered_from p 0 (items_of p)) n = Ok top
     ∧ rem = ceil_div (default 0 (total r)) 100 - p.
Proof.
  unfold page_outcome, page_items. rewrite fetch_unfold.
  destruct (session _ _) as [r|e]; [|done].
  destruct (ok r) eqn:Hok; simpl; [|done].
  destruct (forallb count_ok _); [|done].
  destruct (get_top_n_questions_by_view_count _ _ _) as [top'|] eqn:Htop;
    [|done].
  intros [= <- <-]. by exists r.
Qed.

(** The top-N of a page, read on any heap that holds the page. *)
Lemma page_outcome_top p top rem ps σ :
  outcome p = Ok (top, rem) → fetched ps σ → p ∈ ps →
  get_top_n_questions_by_view_count σ (unanswered_from p 0 (items_of p)) n
  = Ok top.
Proof.
  intros (r & _ & _ & _ & Htop & _)%page_outcome_Ok Hσ Hp.
  rewrite <-Htop. apply get_top_n_ext. intros [p' j] Hl.
  apply elem_of_unanswered_from in Hl as (-> & _ & q & Hq & _).
  apply lookup_lt_Some in Hq.
  rewrite Hσ, decide_True, alloc_from_lookup, decide_True by
    (rewrite ?length_fmap; (done || lia)).
  by rewrite Nat.sub_0_r.
Qed.

Lemma passing_count_singleton p :
  count [p] = length (unanswered_from p 0 (items_of p)).
Proof.
  unfold passing_count. simpl. rewrite unanswered_from_length. lia.
Qed.

Lemma fold_group_merged pages results σ top top' ps :
  Forall2 (λ p a, outcome p = Ok a) pages results →
  fetched (ps ++ pages) σ →
  fold_group σ top results n = Ok top' →
  (∀ l, l ∈ top → l ∈ passing ps) →
  (0 ≤ n → Z.of_nat (length top) = Z.min n (Z.of_nat (count ps))) →
  (∀ l, l ∈ top' → l ∈ passing (ps ++ pages))
  ∧ (0 ≤ n →
     Z.of_nat (length top') = Z.min n (Z.of_nat (count (ps ++ pages))))
  ∧ ((results = [] ∧ top' = top)
     ∨ ∃ qs, get_top_n_questions_by_view_count σ qs n = Ok top').
Proof.
  intros Hall. revert top ps.
  induction Hall as [|p [top_p rem] pages results Hp Hall IH];
    intros top ps Hσ Hfold Hsub Hlen.
  - injection Hfold as <-. rewrite app_nil_r. split_and!; [done..|by left].
  - cbn [fold_group] in Hfold. unfold merge in Hfold.
    destruct (get_top_n_questions_by_view_count σ (top ++ top_p) n)
      as [top1|] eqn:Hm; [|done].
    assert (get_top_n_questions_by_view_count σ
              (unanswered_from p 0 (items_of p)) n = Ok top_p) as Htop_p.
    { eapply page_outcome_top; [done..|]. set_solver. }
    replace (ps ++ p :: pages) with ((ps ++ [p]) ++ pages) in *
      by (by rewrite <-app_assoc).
    destruct (IH top1 (ps ++ [p]) Hσ Hfold) as (Hsub' & Hlen' & Hor).
    + intros l Hl. apply (get_top_n_subseteq _ _ _ _ Hm) in Hl.
      apply passing_locs_app. apply elem_of_app in Hl as [Hl|Hl]; [auto|].
      right. apply (get_top_n_subseteq _ _ _ _ Htop_p) in Hl.
      unfold passing_locs. simpl. by rewrite app_nil_r.
    + intros Hn. specialize (Hlen Hn).
      apply get_top_n_length in Hm, Htop_p; [|done..].
      rewrite length_app in Hm.
      rewrite passing_count_app, passing_count_singleton. lia.
    + split_and!; [done..|]. right.
      destruct Hor as [[-> ->]|Hex]; [|done]. eauto.
Qed.

Lemma first_page_merged top r σ :
  fetch_top_n_unanswered_questions_async (client self) session tag in_title
    from_date 1 n 100 ∅ = Ok ((top, r), σ) →
  inv [1] top σ.
Proof.
  rewrite fetch_page_outcome.
  destruct (outcome 1) as [[top' r']|e] eqn:Ho; [|done].
  intros [= -> -> <-].
  assert (fetched [1] (alloc_from 1 0 (delete "answer_count" <$> items_of 1) ∅))
    as Hσ.
  { apply fetched_heap_alloc. intros p i. rewrite lookup_empty.
    by rewrite decide_False by apply not_elem_of_nil. }
  pose proof (page_outcome_top _ _ _ _ _ Ho Hσ ltac:(set_solver)) as Htop.
  split_and!; [done| | |eauto].
  - intros l Hl. apply (get_top_n_subseteq _ _ _ _ Htop) in Hl.
    unfold passing_locs. simpl. by rewrite app_nil_r.
  - intros Hn. apply get_top_n_length in Htop; [|done].
    by rewrite passing_count_singleton.
Qed.

Variable (arrival : Z → nat).

Lemma drain_merged batch_size fuel page_number r top σ groups res σ' ps :
  drain fuel self session arrival tag in_title from_date batch_size n
    page_number r top σ = Some (groups, Ok (res, σ')) →
  inv ps top σ → inv (ps ++ concat groups) res σ'.
Proof.
  revert page_number r top σ groups ps.
  induction fuel as [|fuel IH];
    intros page_number r top σ groups ps Hrun Hinv.
  { simpl in Hrun. destruct (0 <? r); [done|].
    injection Hrun as <- <- <-. by rewrite app_nil_r. }
  destruct (decide (r ≤ 0)) as [Hz|Hpos].
  { rewrite drain_done in Hrun by done.
    injection Hrun as <- <- <-. by rewrite app_nil_r. }
  destruct (decide (batch_size = 0)) as [->|HB].
  { cbn [drain] in Hrun.
    destruct (Z.ltb_spec 0 r); [discriminate Hrun|lia]. }
  rewrite drain_step in Hrun by lia. cbn zeta in Hrun.
  set (pages := group_pages page_number _) in *.
  destruct (gather _ _ _ _) as [[results σ1]|e] eqn:Hg; [|done].
  destruct (fold_group _ _ _ _) as [top1|e] eqn:Hf; [|done].
  destruct (drain _ _ _ _ _ _ _ _ _ _ _ _ _) as [[groups' out']|] eqn:Hrec;
    [|done].
  injection Hrun as <- ->.
  apply gather_Ok in Hg as (Hall & Hheap & Hnil).
  destruct Hinv as (Hσ & Hsub & Hlen & Hex).
  assert (fetched (ps ++ pages) σ1) as Hσ1.
  { eapply fetched_heap_proper; [|apply (Hheap ps Hσ)]. set_solver. }
  destruct (fold_group_merged _ _ _ _ _ _ Hall Hσ1 Hf Hsub Hlen)
    as (Hsub1 & Hlen1 & Hor).
  change (concat (pages :: groups')) with (pages ++ concat groups').
  rewrite app_assoc. eapply IH; [exact Hrec|].
  split_and!; [done..|].
  destruct Hor as [[-> ->]|?]; [|done].
  apply Forall2_nil_inv_r in Hall. by rewrite Hnil.
Qed.

(** Everything the retrieval returns was fetched, filtered and merged. *)
Lemma retrieval_merged batch_size fuel groups res σ :
  get_top_n_unanswered_questions_async fuel self session arrival tag
    in_title from_date batch_size n = Some (groups, Ok (res, σ)) →
  inv (1 :: concat groups) res σ.
Proof.
  unfold get_top_n_unanswered_questions_async.
  destruct (fetch_top_n_unanswered_questions_async _ _ _ _ _ _ _ _ _)
    as [[[top r] σ1]|e] eqn:Hp1; [|done].
  intros Hrun. apply first_page_merged in Hp1.
  by apply (drain_merged _ _ _ _ _ _ _ _ _ [1] Hrun).
Qed.
End merged.

(** * Main results *)

(** ** TopNSelector *)



(** C8. A list the merge has produced, of length at most [n], is returned
    unchanged when merged again with no incoming items under the same [n]. *)
Theorem merge_idempotent σ current incoming n res :
  merge σ current incoming n = Ok res →
  Z.of_nat (length res) ≤ n →
  merge σ res [] n = Ok res.
Proof.
  unfold merge. intros Hm Hlen. rewrite app_nil_r.
  by eapply get_top_n_again.
Qed.

Lemma merge_idempotent_witness :
  let σ := (returned (sample_run 350 2 5)).2 in
  merge σ [(4, 0%nat); (3, 0%nat); (2, 0%nat)] [] 3
  = Ok [(4, 0%nat); (3, 0%nat); (2, 0%nat)].
Proof.
  apply (merge_idempotent _ [(3, 0%nat); (2, 0%nat)]
           [(4, 2%nat); (3, 2%nat); (4, 0%nat)]).
  - vm_compute. reflexivity.
  - simpl. lia.
Defined.

(** For [n >= 0] a merge result never has more than [n] elements; for a
    negative [n] the slice drops elements from the end each time. *)
Lemma merge_length_le σ current incoming n res :
  0 ≤ n → merge σ current incoming n = Ok res → Z.of_nat (length res) ≤ n.
Proof.
  intros Hn Hm. rewrite (get_top_n_length _ _ _ _ Hn Hm). lia.
Qed.

Example merge_negative_n :
  let σ := (returned (sample_run 350 2 5)).2 in
  merge σ [(3, 0%nat); (2, 0%nat)] [(4, 0%nat)] (-1)
  = Ok [(4, 0%nat); (3, 0%nat)]
  ∧ merge σ [(4, 0%nat); (3, 0%nat)] [] (-1) = Ok [(4, 0%nat)].
Proof. split; vm_compute; reflexivity. Qed.

(** ** The filter *)

(** C10. A question without [answer_count]: the count is taken to be 0, so
    [is_answered] answers [False] and removes nothing; the filter keeps the
    question, and the object is the same afterwards. *)
Theorem unanswered_without_field σ l q :
  σ !! l = Some q →
  q !! "answer_count" = None →
  is_answered l σ = Ok (false, σ)
  ∧ ∀ questions kept σ',
      l ∈ questions →
      remove_answered_questions questions σ = Ok (kept, σ') →
      l ∈ kept ∧ σ' !! l = Some q.
Proof.
  intros Hl Hq. split; [by eapply is_answered_absent|].
  intros questions kept σ' Hin Hrun.
  destruct (remove_answered_keeps_absent _ _ _ _ _ _ Hrun Hl Hq). auto.
Qed.

Lemma unanswered_without_field_witness :
  let σ : heap := {[ (1, 0%nat) := sample_question 7 None;
                     (1, 1%nat) := sample_question 9 (Some 3) ]} in
  is_answered (1, 0%nat) σ = Ok (false, σ)
  ∧ ∀ questions kept σ',
      (1, 0%nat) ∈ questions →
      remove_answered_questions questions σ = Ok (kept, σ') →
      (1, 0%nat) ∈ kept ∧ σ' !! (1, 0%nat) = Some (sample_question 7 None).
Proof.
  apply unanswered_without_field; vm_compute; reflexivity.
Defined.

(** C4. No question whose [answer_count] is positive is in the list a
    retrieval returns, and every question in that list has had its
    [answer_count] removed: the object in the heap is the dict of the reply
    without that field. *)
Theorem filter_correct fuel self session arrival tag in_title from_date
    batch_size n groups res σ :
  get_top_n_unanswered_questions_async fuel self session arrival tag in_title
    from_date batch_size n = Some (groups, Ok (res, σ)) →
  (∀ p i q z,
     page_items (client self) session tag in_title from_date p !! i = Some q →
     q !! "answer_count" = Some (VInt z) → 0 < z →
     (p, i) ∉ res)
  ∧ (∀ p i,
       (p, i) ∈ res →
       p ∈ 1 :: concat groups
       ∧ ∃ q, page_items (client self) session tag in_title from_date p !! i
              = Some q
            ∧ unanswered q = true
            ∧ σ !! (p, i) = Some (delete "answer_count" q))
  ∧ (∀ d, d ∈ returned_questions (res, σ) → d !! "answer_count" = None).
Proof.
  intros (Hσ & Hsub & _ & _)%retrieval_merged.
  assert (∀ p i, (p, i) ∈ res →
            p ∈ 1 :: concat groups
            ∧ ∃ q, page_items (client self) session tag in_title from_date p
                     !! i = Some q
                 ∧ unanswered q = true
                 ∧ σ !! (p, i) = Some (delete "answer_count" q)) as Hres.
  { intros p i Hin. apply Hsub in Hin. unfold passing_locs in Hin.
    apply list_elem_of_bind in Hin as (p' & Hin & Hp').
    apply elem_of_unanswered_from in Hin as (-> & _ & q & Hq & Hu).
    rewrite Nat.sub_0_r in Hq. split; [done|]. exists q. split_and!; [done..|].
    by rewrite Hσ, decide_True, list_lookup_fmap, Hq. }
  split_and!; [|done|].
  - intros p i q z Hq Hac Hz Hin.
    apply Hres in Hin as (_ & q' & Hq' & Hu & _).
    assert (q' = q) as -> by congruence.
    unfold unanswered in Hu. rewrite Hac in Hu.
    by destruct (Z.ltb_spec 0 z); [|lia].
  - intros d Hd. unfold returned_questions in Hd.
    apply list_elem_of_omap in Hd as ([p i] & Hin & Hd). simpl in *.
    apply Hres in Hin as (_ & q & _ & _ & Hl).
    rewrite Hl in Hd. injection Hd as <-. apply lookup_delete_eq.
Qed.

Lemma filter_correct_witness :
  ((4, 1%nat) ∉ (returned (sample_run 350 2 5)).1)
  ∧ (∀ d, d ∈ returned_questions (returned (sample_run 350 2 5)) →
          d !! "answer_count" = None).
Proof.
  assert (sample_run 350 2 5
          = Some ([[2]; [3; 4]],
                  Ok ((returned (sample_run 350 2 5)).1,
                      (returned (sample_run 350 2 5)).2))) as Hrun.
  { vm_compute. reflexivity. }
  destruct (filter_correct _ _ _ _ _ _ _ _ _ _ _ _ Hrun) as (Hno & _ & Hpop).
  split.
  - apply (Hno 4 1%nat (sample_question 45 (Some 2)) 2);
      [vm_compute; reflexivity..|lia].
  - intros d Hd. apply Hpop.
    by destruct (returned (sample_run 350 2 5)).
Defined.

(** ** BatchScheduler *)

(** C1. A round of the drain loop entered with [remaining > 0] pages left and
    a batch size of at least 1 requests [remaining mod batch_size] pages, or
    [batch_size] when that is zero; every later round requests exactly
    [batch_size] pages; the pages are numbered consecutively from the page
    after [page_number], and when the loop ends without an error it has
    requested all [remaining] pages. In a retrieval the loop is entered with
    [page_number = 1], so the pages are 2, 3, ... *)
Theorem drain_group_widths :
  (∀ fuel self session arrival tag in_title from_date batch_size n
     page_number remaining top σ groups out,
     1 ≤ batch_size → 0 < remaining →
     drain fuel self session arrival tag in_title from_date batch_size n
       page_number remaining top σ = Some (groups, out) →
     ∃ first rest,
       groups = first :: rest
       ∧ Z.of_nat (length first)
         = (if remaining mod batch_size =? 0 then batch_size
            else remaining mod batch_size)
       ∧ Forall (λ g, Z.of_nat (length g) = batch_size) rest
       ∧ (∀ i p, concat groups !! i = Some p →
                 p = page_number + 1 + Z.of_nat i)
       ∧ (is_ok out = true → Z.of_nat (length (concat groups)) = remaining))
  ∧ (∀ fuel self session arrival tag in_title from_date batch_size n groups
       out,
       1 ≤ batch_size →
       get_top_n_unanswered_questions_async fuel self session arrival tag
         in_title from_date batch_size n = Some (groups, out) →
       ∀ i p, concat groups !! i = Some p → p = 2 + Z.of_nat i).
Proof.
  split.
  - intros fuel self session arrival tag in_title from_date batch_size n
      page_number remaining top σ groups out HB Hr Hrun.
    destruct (drain_groups _ _ _ _ _ _ _ _ _ _ _ _ _ _ _ HB Hr Hrun)
      as ((first & rest & -> & Hfirst & Hrest) & Hcons & Htot).
    exists first, rest. by split_and!.
  - intros fuel self session arrival tag in_title from_date batch_size n
      groups out HB. unfold get_top_n_unanswered_questions_async.
    destruct (fetch_top_n_unanswered_questions_async _ _ _ _ _ _ _ _ _)
      as [[[top r] σ]|e].
    2:{ intros [= <- <-] i p Hi. cbn [concat] in Hi.
        by rewrite lookup_nil in Hi. }
    intros Hrun i p Hi. destruct (decide (r ≤ 0)) as [Hz|Hpos].
    + rewrite drain_done in Hrun by done. injection Hrun as <- <-.
      cbn [concat] in Hi. by rewrite lookup_nil in Hi.
    + assert (0 < r) as Hr by lia.
      destruct (drain_groups _ _ _ _ _ _ _ _ _ _ _ _ _ _ _ HB Hr Hrun)
        as (_ & Hcons & _).
      apply Hcons in Hi. lia.
Qed.

Lemma drain_group_widths_witness :
  sample_run 350 2 5
  = Some ([[2]; [3; 4]],
          Ok ((returned (sample_run 350 2 5)).1,
              (returned (sample_run 350 2 5)).2))
  ∧ ∃ first rest,
      [[2]; [3; 4]] = first :: rest
      ∧ Z.of_nat (length first) = 1
      ∧ Forall (λ g, Z.of_nat (length g) = 2) rest.
Proof.
  split; [vm_compute; reflexivity|].
  destruct (proj1 drain_group_widths 9%nat new_controller (sample_session 350)
              in_page_order "python" "" 0 2 5 1 3 [(1, 0%nat); (1, 2%nat)]
              (returned (sample_run 0 2 5)).2 [[2]; [3; 4]]
              (Ok (returned (sample_run 350 2 5))))
    as (first & rest & Heq & Hfirst & Hrest & _).
  - lia.
  - lia.
  - vm_compute. reflexivity.
  - exists first, rest. split_and!; [done| |done].
    rewrite Hfirst. reflexivity.
Defined.

(** The retrieval finishes, with a list or with an error, for every batch
    size of at least 1, once the fuel covers the pages left after the first
    fetch. *)
Lemma retrieval_terminates fuel self session arrival tag in_title from_date
    batch_size n :
  1 ≤ batch_size →
  (match page_outcome (client self) session tag in_title from_date n 1 with
   | Ok (_, remaining) => Z.to_nat remaining
   | Err _ => 0%nat
   end ≤ fuel)%nat →
  ∃ groups out,
    get_top_n_unanswered_questions_async fuel self session arrival tag
      in_title from_date batch_size n = Some (groups, out).
Proof.
  intros HB Hfuel. unfold get_top_n_unanswered_questions_async.
  rewrite fetch_page_outcome.
  destruct (page_outcome _ _ _ _ _ _ _) as [[top r]|e]; [|eauto].
  by apply drain_terminates.
Qed.

(** C2, as amended. For [n >= 0], the list a retrieval returns has at most
    [n] elements, and exactly the minimum of [n] and the number of questions
    passing the filter on the pages fetched (page 1 and the pages of the
    groups): truncating every page to its own top [n] loses nothing. *)
Theorem top_n_bound fuel self session arrival tag in_title from_date
    batch_size n groups res σ :
  0 ≤ n →
  get_top_n_unanswered_questions_async fuel self session arrival tag in_title
    from_date batch_size n = Some (groups, Ok (res, σ)) →
  Z.of_nat (length res) ≤ n
  ∧ Z.of_nat (length res)
    = Z.min n (Z.of_nat (passing_count (client self) session tag in_title
                           from_date (1 :: concat groups))).
Proof.
  intros Hn (_ & _ & Hlen & _)%retrieval_merged.
  specialize (Hlen Hn). split; [lia|done].
Qed.

Lemma top_n_bound_witness :
  passing_count (client new_controller) (sample_session 350) "python" "" 0
    [1; 2; 3; 4] = 8%nat
  ∧ Z.of_nat (length (returned (sample_run 350 2 5)).1) = 5.
Proof.
  split; [vm_compute; reflexivity|].
  destruct (top_n_bound 10 new_controller (sample_session 350) in_page_order
              "python" "" 0 2 5 [[2]; [3; 4]]
              (returned (sample_run 350 2 5)).1
              (returned (sample_run 350 2 5)).2) as [_ ->].
  - lia.
  - vm_compute. reflexivity.
  - vm_compute. reflexivity.
Defined.

(** C2, as stated, fails for a negative [n]: [sorted_questions[:-1]] drops
    the last element only. The single page below has two passing questions
    and the retrieval returns one of them: more than [n = -1] elements, and
    not [min(n, 2)] of them. *)
Lemma top_n_bound_negative_n :
  sample_run 0 2 (-1)
  = Some ([], Ok ([(1, 0%nat)], (returned (sample_run 0 2 (-1))).2))
  ∧ passing_count (client new_controller) (sample_session 0) "python" "" 0 [1]
    = 2%nat
  ∧ ¬ (Z.of_nat (length [(1, 0%nat)]) ≤ -1)
  ∧ Z.of_nat (length [(1, 0%nat)]) ≠ Z.min (-1) 2.
Proof.
  split_and!; [vm_compute; reflexivity..| |]; simpl; lia.
Qed.

(** ** PageFetcher *)











(** ** Failure of a page *)

Section failure.
Variables (self : StackOverflowController) (session : ClientSession).
Variables (arrival : Z → nat) (tag in_title : string).
Variables (from_date batch_size n : Z).

Local Abbreviation outcome :=
  (page_outcome (client self) session tag in_title from_date n).

(** A failing fetch in a group ends the loop in that group, with the
    exception of the failing fetch of the group that completes first. *)
Lemma drain_fail fuel page_number r top σ groups out k e :
  drain fuel self session arrival tag in_title from_date batch_size n
    page_number r top σ = Some (groups, out) →
  k ∈ concat groups → outcome k = Err e →
  ∃ g k' e', last groups = Some g ∧ k ∈ g ∧ k' ∈ g
           ∧ outcome k' = Err e' ∧ out = Err e'
           ∧ ∀ k'' e'', k'' ∈ g → outcome k'' = Err e'' →
                        (arrival k' ≤ arrival k'')%nat.
Proof.
  revert page_number r top σ groups.
  induction fuel as [|fuel IH]; intros page_number r top σ groups Hrun Hk He.
  { simpl in Hrun. destruct (0 <? r); [done|].
    injection Hrun as <- <-. by apply elem_of_nil in Hk. }
  destruct (decide (r ≤ 0)) as [Hz|Hpos].
  { rewrite drain_done in Hrun by done.
    injection Hrun as <- <-. by apply elem_of_nil in Hk. }
  destruct (decide (batch_size = 0)) as [HB|HB].
  { cbn [drain] in Hrun. destruct (Z.ltb_spec 0 r); [|lia].
    rewrite HB in Hrun. simpl in Hrun.
    injection Hrun as <- <-. by apply elem_of_nil in Hk. }
  rewrite drain_step in Hrun by lia. cbn zeta in Hrun.
  set (pages := group_pages page_number _) in *.
  destruct (gather _ _ _ _) as [[results σ1]|e0] eqn:Hg.
  - apply gather_Ok in Hg as (Hall & _ & _).
    assert (k ∉ pages) as Hnot.
    { intros Hin. apply list_elem_of_lookup in Hin as [i Hi].
      destruct (Forall2_lookup_l _ _ _ _ _ Hall Hi) as (a & _ & Ha).
      congruence. }
    destruct (fold_group _ _ _ _) as [top1|e1].
    2:{ injection Hrun as <- <-. simpl in Hk. rewrite app_nil_r in Hk.
        done. }
    destruct (drain _ _ _ _ _ _ _ _ _ _ _ _ _) as [[groups' out']|] eqn:Hrec;
      [|done].
    injection Hrun as <- <-.
    change (concat (pages :: groups')) with (pages ++ concat groups') in Hk.
    apply elem_of_app in Hk as [Hk|Hk]; [done|].
    destruct (IH _ _ _ _ _ Hrec Hk He) as (g & k' & e' & Hlast & Hrest).
    exists g, k', e'. split; [|done].
    destruct groups' as [|g0 groups']; [done|]. done.
  - injection Hrun as <- <-. simpl in Hk. rewrite app_nil_r in Hk.
    apply gather_Err in Hg as (x & errs & Hfail & ->).
    destruct (first_raised_spec arrival x errs) as [Hin Hmin].
    rewrite <-Hfail in Hin, Hmin.
    destruct (first_raised arrival x errs) as [k' e'] eqn:Hfr.
    apply elem_of_failures in Hin as [Hk' He'].
    exists pages, k', e'. split_and!; [done..|].
    intros k'' e'' Hk'' He''.
    apply (Hmin (k'', e'')). by apply elem_of_failures.
Qed.
End failure.

(** C5, as amended. When the fetch of a page requested after page 1 fails,
    the retrieval returns no list: it raises the exception of the failing
    fetch of that page's group that completes first, and that group is the
    last one requested. It is the page's own exception when no other fetch
    of its group fails. *)
Theorem retrieval_fail_fast fuel self session arrival tag in_title from_date
    batch_size n groups out k e :
  get_top_n_unanswered_questions_async fuel self session arrival tag in_title
    from_date batch_size n = Some (groups, out) →
  k ∈ concat groups →
  page_outcome (client self) session tag in_title from_date n k = Err e →
  ∃ g k' e',
    last groups = Some g ∧ k ∈ g ∧ k' ∈ g
    ∧ page_outcome (client self) session tag in_title from_date n k' = Err e'
    ∧ out = Err e'
    ∧ (∀ k'' e'', k'' ∈ g →
         page_outcome (client self) session tag in_title from_date n k''
         = Err e'' →
         (arrival k' ≤ arrival k'')%nat)
    ∧ ((∀ k'' e'', k'' ∈ g →
          page_outcome (client self) session tag in_title from_date n k''
          = Err e'' → k'' = k) →
       out = Err e).
Proof.
  unfold get_top_n_unanswered_questions_async.
  destruct (fetch_top_n_unanswered_questions_async _ _ _ _ _ _ _ _ _)
    as [[[top r] σ]|e1].
  2:{ intros [= <- <-] Hk. by apply elem_of_nil in Hk. }
  intros Hrun Hk He.
  destruct (drain_fail _ _ _ _ _ _ _ _ _ _ _ _ _ _ _ _ _ Hrun Hk He)
    as (g & k' & e' & Hlast & Hkg & Hk'g & He' & -> & Hmin).
  exists g, k', e'. split_and!; [done..|].
  intros Honly. specialize (Honly k' e' Hk'g He'). subst k'. congruence.
Qed.

Lemma retrieval_fail_fast_witness :
  ∃ g k' e',
    last [[2]] = Some g ∧ 2 ∈ g ∧ k' ∈ g
    ∧ page_outcome (client new_controller) refusing_session "python" "" 0 5 k'
      = Err e'
    ∧ @Err (list loc * heap) (Exception
             "Unable to fetch page #2: too many requests | Error code: 502")
      = Err e'
    ∧ (∀ k'' e'', k'' ∈ g →
         page_outcome (client new_controller) refusing_session "python" "" 0 5
           k'' = Err e'' →
         (in_page_order k' ≤ in_page_order k'')%nat)
    ∧ ((∀ k'' e'', k'' ∈ g →
          page_outcome (client new_controller) refusing_session "python" "" 0
            5 k'' = Err e'' → k'' = 2) →
       @Err (list loc * heap) (Exception
              "Unable to fetch page #2: too many requests | Error code: 502")
       = Err (Exception
                "Unable to fetch page #2: too many requests | Error code: 502")).
Proof.
  apply (retrieval_fail_fast 10 new_controller refusing_session in_page_order
           "python" "" 0 1 5 [[2]]).
  - vm_compute. reflexivity.
  - vm_compute. apply list_elem_of_singleton. reflexivity.
  - vm_compute. reflexivity.
Defined.

(** C5, as stated, fails when two fetches of one group fail: pages 2 and 3
    are requested together and both are refused; the retrieval raises the
    exception of page 2, which completes first, and not that of page 3. *)
Lemma fail_fast_counterexample :
  get_top_n_unanswered_questions_async 10 new_controller refusing_session
    in_page_order "python" "" 0 2 5
  = Some ([[2; 3]],
          Err (Exception
                 "Unable to fetch page #2: too many requests | Error code: 502"))
  ∧ 3 ∈ concat [[2; 3]]
  ∧ page_outcome (client new_controller) refusing_session "python" "" 0 5 3
    = Err (Exception
             "Unable to fetch page #3: too many requests | Error code: 502")
  ∧ get_top_n_unanswered_questions_async 10 new_controller refusing_session
      in_page_order "python" "" 0 2 5
    ≠ Some ([[2; 3]],
            Err (Exception
                   "Unable to fetch page #3: too many requests | Error code: 502")).
Proof.
  split_and!; [vm_compute; reflexivity| |vm_compute; reflexivity|].
  - simpl. apply elem_of_cons. right. apply elem_of_cons. by left.
  - vm_compute. discriminate.
Qed.

(** ** The default from-date *)

(** With [from_date] omitted, every call uses the value computed when the
    function was defined, whatever the clock reads at the call. *)
Lemma from_date_omitted now_def now_call fuel self session arrival tag in_title
    batch_size n :
  call_get_top_n_unanswered_questions_async
    (define_get_top_n_unanswered_questions_async now_def) now_call fuel self
    session arrival tag in_title None batch_size n
  = get_top_n_unanswered_questions_async fuel self session arrival tag
      (default "" in_title) (get_week_ago_in_seconds now_def)
      (default 10 batch_size) (default 5 n).
Proof. reflexivity. Qed.

(** C9 does not hold of the code. The function is defined when the clock
    reads 1 700 000 000 s and called an hour later without [from_date]: the
    request carries [fromdate = 1699395200], a week before the definition,
    where a week before the call is 1699398800. *)
Theorem default_from_date_is_stale :
  call_get_top_n_unanswered_questions_async
    (define_get_top_n_unanswered_questions_async 1700000000000000)
    1700003600000000 10 new_controller echo_session in_page_order "python"
    None None None None
  = Some ([], Err (Exception
                     "Unable to fetch page #1: 1699395200 | Error code: 500"))
  ∧ get_week_ago_in_seconds 1700003600000000 = 1699398800.
Proof. split; vm_compute; reflexivity. Qed.


(** * Further properties *)

(** ** The selector on truncated lists *)

Section smerge.
Context {A : Type}.
Implicit Types (x y : Z * A) (l k : list (Z * A)).

Lemma smerge_nil_r l : smerge l [] = l.
Proof. by destruct l. Qed.

Lemma smerge_cons x l y k :
  smerge (x :: l) (y :: k)
  = if x.1 <? y.1 then y :: smerge (x :: l) k else x :: smerge l (y :: k).
Proof. done. Qed.

Lemma insert_desc_smerge x l k :
  insert_desc x (smerge l k) = smerge (insert_desc x l) k.
Proof.
  revert k. induction l as [|z l IHl]; intros k.
  - induction k as [|y k IHk]; [done|].
    cbn [smerge insert_desc]. destruct (x.1 <? y.1); [|done].
    f_equal. exact IHk.
  - induction k as [|y k IHk].
    { by rewrite !smerge_nil_r. }
    rewrite smerge_cons. cbn [insert_desc].
    destruct (Z.ltb_spec z.1 y.1) as [Hzy|Hzy].
    + cbn [insert_desc].
      destruct (Z.ltb_spec x.1 z.1) as [Hxz|Hxz].
      * destruct (Z.ltb_spec x.1 y.1); [|lia].
        rewrite smerge_cons. destruct (Z.ltb_spec z.1 y.1); [|lia].
        f_equal. rewrite IHk. cbn [insert_desc].
        by destruct (Z.ltb_spec x.1 z.1); [|lia].
      * rewrite smerge_cons.
        destruct (Z.ltb_spec x.1 y.1) as [Hxy|Hxy].
        -- f_equal. rewrite IHk. cbn [insert_desc].
           by destruct (Z.ltb_spec x.1 z.1); [lia|].
        -- f_equal. rewrite smerge_cons.
           by destruct (Z.ltb_spec z.1 y.1); [|lia].
    + cbn [insert_desc].
      destruct (Z.ltb_spec x.1 z.1) as [Hxz|Hxz].
      * rewrite smerge_cons. destruct (Z.ltb_spec z.1 y.1); [lia|].
        f_equal. apply IHl.
      * rewrite smerge_cons. destruct (Z.ltb_spec x.1 y.1); [lia|].
        f_equal. rewrite smerge_cons.
        by destruct (Z.ltb_spec z.1 y.1); [lia|].
Qed.

(** Sorting a concatenation merges the sorted parts. *)
Lemma sorted_desc_app l k :
  sorted_desc (l ++ k) = smerge (sorted_desc l) (sorted_desc k).
Proof.
  induction l as [|x l IH]; [done|].
  cbn [app sorted_desc]. by rewrite IH, insert_desc_smerge.
Qed.

Lemma smerge_take_l n m l k :
  (n ≤ m)%nat → take n (smerge (take m l) k) = take n (smerge l k).
Proof.
  revert n m k. induction l as [|x l IHl]; intros n m k Hnm.
  { by rewrite take_nil. }
  revert n m Hnm. induction k as [|y k IHk]; intros n m Hnm.
  { rewrite !smerge_nil_r, take_take. f_equal. lia. }
  destruct n as [|n]; [done|]. destruct m as [|m]; [lia|].
  cbn [take]. rewrite !smerge_cons.
  destruct (x.1 <? y.1); cbn [take]; f_equal.
  - apply (IHk n (S m)). lia.
  - apply IHl. lia.
Qed.

Lemma smerge_take_r n m l k :
  (n ≤ m)%nat → take n (smerge l (take m k)) = take n (smerge l k).
Proof.
  revert n m k. induction l as [|x l IHl]; intros n m k Hnm.
  { cbn [smerge]. rewrite take_take. f_equal. lia. }
  revert n m Hnm. induction k as [|y k IHk]; intros n m Hnm.
  { by rewrite take_nil. }
  destruct n as [|n]; [done|]. destruct m as [|m]; [lia|].
  cbn [take]. rewrite !smerge_cons.
  destruct (x.1 <? y.1); cbn [take]; f_equal.
  - apply IHk. lia.
  - apply (IHl n (S m) (y :: k)). lia.
Qed.

(** The top [n] of two truncated lists is the top [n] of the whole. *)
Lemma take_sorted_desc_app n l k :
  take n (sorted_desc (take n (sorted_desc l) ++ take n (sorted_desc k)))
  = take n (sorted_desc (l ++ k)).
Proof.
  rewrite !sorted_desc_app.
  rewrite !(sorted_desc_id (take n _))
    by (eapply StronglySorted_prefix;
        [apply prefix_take|apply sorted_desc_sorted]).
  by rewrite smerge_take_l, smerge_take_r.
Qed.
End smerge.

Lemma decorate_app σ qs qs' ks :
  decorate σ qs = Ok ks →
  decorate σ (qs ++ qs')
  = match decorate σ qs' with
    | Ok ks' => Ok (ks ++ ks')
    | Err e => Err e
    end.
Proof.
  revert ks. induction qs as [|l qs IH]; intros ks Hd; simpl in *.
  - injection Hd as <-. by destruct (decorate σ qs').
  - destruct (view_count σ l) as [k|]; [|done].
    destruct (decorate σ qs) as [ks0|]; [|done]. injection Hd as <-.
    rewrite (IH ks0 eq_refl). by destruct (decorate σ qs').
Qed.

Lemma get_top_n_take σ qs n ks :
  0 ≤ n → decorate σ qs = Ok ks →
  get_top_n_questions_by_view_count σ qs n
  = Ok (snd <$> take (Z.to_nat n) (sorted_desc ks)).
Proof.
  intros Hn Hd. unfold get_top_n_questions_by_view_count.
  by rewrite Hd, slice_to_nonneg, fmap_take.
Qed.

Lemma decorate_take_sorted σ qs ks m :
  decorate σ qs = Ok ks →
  decorate σ (snd <$> take m (sorted_desc ks)) = Ok (take m (sorted_desc ks)).
Proof.
  intros [_ Hall]%decorate_Ok. apply decorate_fmap.
  apply Forall_take. by rewrite sorted_desc_perm.
Qed.

Lemma merge_truncated_selection σ qs qs' n top top' :
  0 ≤ n →
  get_top_n_questions_by_view_count σ qs n = Ok top →
  get_top_n_questions_by_view_count σ qs' n = Ok top' →
  merge σ top top' n = get_top_n_questions_by_view_count σ (qs ++ qs') n.
Proof.
  intros Hn Htop Htop'. unfold merge.
  destruct (decorate σ qs) as [ks|] eqn:Hd.
  2:{ unfold get_top_n_questions_by_view_count in Htop. by rewrite Hd in Htop. }
  destruct (decorate σ qs') as [ks'|] eqn:Hd'.
  2:{ unfold get_top_n_questions_by_view_count in Htop'.
      by rewrite Hd' in Htop'. }
  rewrite (get_top_n_take _ _ _ _ Hn Hd) in Htop. injection Htop as <-.
  rewrite (get_top_n_take _ _ _ _ Hn Hd') in Htop'. injection Htop' as <-.
  pose proof (decorate_app σ qs qs' ks Hd) as Happ. rewrite Hd' in Happ.
  rewrite (get_top_n_take _ _ _ _ Hn Happ).
  pose proof (decorate_app σ _ (snd <$> take (Z.to_nat n) (sorted_desc ks'))
                _ (decorate_take_sorted σ qs ks (Z.to_nat n) Hd)) as Happ'.
  rewrite (decorate_take_sorted σ qs' ks' (Z.to_nat n) Hd') in Happ'.
  rewrite (get_top_n_take _ _ _ _ Hn Happ').
  by rewrite take_sorted_desc_app.
Qed.

(** X1. For [n >= 0], merging the top [n] of one list with the top [n] of
    another gives the top [n] of the two lists put together, with the same
    order of ties: truncating before a merge loses nothing. *)
Theorem merge_of_truncated σ qs qs' n top top' :
  0 ≤ n →
  get_top_n_questions_by_view_count σ qs n = Ok top →
  get_top_n_questions_by_view_count σ qs' n = Ok top' →
  merge σ top top' n = get_top_n_questions_by_view_count σ (qs ++ qs') n.
Proof. apply merge_truncated_selection. Qed.

Lemma merge_of_truncated_witness :
  let σ := (returned (sample_run 350 2 5)).2 in
  merge σ [(2, 0%nat)] [(4, 0%nat)] 1
  = get_top_n_questions_by_view_count σ
      ([(1, 0%nat); (2, 0%nat); (2, 2%nat)] ++ [(3, 2%nat); (4, 0%nat)]) 1.
Proof.
  apply merge_of_truncated; [lia|vm_compute; reflexivity..].
Defined.

(** ** The result of a retrieval as one selection *)

Section selection.
Variables (self : StackOverflowController) (session : ClientSession).
Variables (tag in_title : string).
Variables (from_date n : Z).

Local Abbreviation outcome :=
  (page_outcome (client self) session tag in_title from_date n).
Local Abbreviation items_of :=
  (page_items (client self) session tag in_title from_date).
Local Abbreviation fetched :=
  (fetched_heap (client self) session tag in_title from_date).
Local Abbreviation passing :=
  (passing_locs (client self) session tag in_title from_date).

Lemma fetched_heap_agree ps ps' σ σ' l :
  fetched ps σ → fetched ps' σ' → ps ⊆ ps' → l ∈ passing ps →
  σ !! l = σ' !! l.
Proof.
  intros Hσ Hσ' Hsub Hl. destruct l as [p i].
  unfold passing_locs in Hl.
  apply list_elem_of_bind in Hl as (p' & Hl & Hp').
  apply elem_of_unanswered_from in Hl as (-> & _).
  rewrite Hσ, Hσ', !decide_True; [done|by apply Hsub|done].
Qed.

Lemma passing_locs_snoc ps p :
  passing (ps ++ [p]) = passing ps ++ unanswered_from p 0 (items_of p).
Proof.
  unfold passing_locs. rewrite bind_app. f_equal. simpl. apply app_nil_r.
Qed.

Lemma fold_group_selection pages results σ top top' ps :
  0 ≤ n →
  Forall2 (λ p a, outcome p = Ok a) pages results →
  fetched (ps ++ pages) σ →
  fold_group σ top results n = Ok top' →
  get_top_n_questions_by_view_count σ (passing ps) n = Ok top →
  get_top_n_questions_by_view_count σ (passing (ps ++ pages)) n = Ok top'.
Proof.
  intros Hn Hall. revert top ps.
  induction Hall as [|p [top_p rem] pages results Hp Hall IH];
    intros top ps Hσ Hfold Htop.
  - injection Hfold as <-. by rewrite app_nil_r.
  - cbn [fold_group] in Hfold.
    destruct (merge σ top top_p n) as [top1|] eqn:Hm; [|done].
    assert (get_top_n_questions_by_view_count σ
              (unanswered_from p 0 (items_of p)) n = Ok top_p) as Htop_p.
    { eapply page_outcome_top; [done..|]. set_solver. }
    rewrite (merge_truncated_selection _ _ _ _ _ _ Hn Htop Htop_p) in Hm.
    rewrite <-passing_locs_snoc in Hm.
    replace (ps ++ p :: pages) with ((ps ++ [p]) ++ pages) in *
      by (by rewrite <-app_assoc).
    by eapply IH.
Qed.

Variable (arrival : Z → nat).

Lemma drain_selection batch_size fuel page_number r top σ groups res σ' ps :
  0 ≤ n →
  drain fuel self session arrival tag in_title from_date batch_size n
    page_number r top σ = Some (groups, Ok (res, σ')) →
  fetched ps σ →
  get_top_n_questions_by_view_count σ (passing ps) n = Ok top →
  get_top_n_questions_by_view_count σ' (passing (ps ++ concat groups)) n
  = Ok res.
Proof.
  intros Hn. revert page_number r top σ groups ps.
  induction fuel as [|fuel IH];
    intros page_number r top σ groups ps Hrun Hσ Htop.
  { simpl in Hrun. destruct (0 <? r); [done|].
    injection Hrun as <- <- <-. by rewrite app_nil_r. }
  destruct (decide (r ≤ 0)) as [Hz|Hpos].
  { rewrite drain_done in Hrun by done.
    injection Hrun as <- <- <-. by rewrite app_nil_r. }
  destruct (decide (batch_size = 0)) as [->|HB].
  { cbn [drain] in Hrun.
    destruct (Z.ltb_spec 0 r); [discriminate Hrun|lia]. }
  rewrite drain_step in Hrun by lia. cbn zeta in Hrun.
  set (pages := group_pages page_number _) in *.
  destruct (gather _ _ _ _) as [[results σ1]|e] eqn:Hg; [|done].
  destruct (fold_group _ _ _ _) as [top1|e] eqn:Hf; [|done].
  destruct (drain _ _ _ _ _ _ _ _ _ _ _ _ _) as [[groups' out']|] eqn:Hrec;
    [|done].
  injection Hrun as <- ->.
  apply gather_Ok in Hg as (Hall & Hheap & _).
  assert (fetched (ps ++ pages) σ1) as Hσ1.
  { eapply fetched_heap_proper; [|apply (Hheap ps Hσ)].
    intros p. rewrite !elem_of_app. tauto. }
  assert (get_top_n_questions_by_view_count σ1 (passing ps) n = Ok top)
    as Htop1.
  { rewrite <-Htop. apply get_top_n_ext. intros l Hl. symmetry.
    eapply fetched_heap_agree; [exact Hσ|exact Hσ1| |done].
    intros p Hp. apply elem_of_app. by left. }
  change (concat (pages :: groups')) with (pages ++ concat groups').
  rewrite app_assoc. eapply IH; [exact Hrec|done|].
  by eapply fold_group_selection.
Qed.
End selection.

Lemma retrieval_selection fuel self session arrival tag in_title from_date
    batch_size n groups res σ :
  0 ≤ n →
  get_top_n_unanswered_questions_async fuel self session arrival tag in_title
    from_date batch_size n = Some (groups, Ok (res, σ)) →
  get_top_n_questions_by_view_count σ
    (passing_locs (client self) session tag in_title from_date
       (1 :: concat groups)) n
  = Ok res.
Proof.
  intros Hn. unfold get_top_n_unanswered_questions_async.
  destruct (fetch_top_n_unanswered_questions_async _ _ _ _ _ _ _ _ _)
    as [[[top r] σ1]|e] eqn:Hp1; [|done].
  intros Hrun.
  pose proof (first_page_merged _ _ _ _ _ _ _ _ _ Hp1) as (Hσ1 & _ & _).
  rewrite fetch_page_outcome in Hp1.
  destruct (page_outcome _ _ _ _ _ _ _) as [[top' r']|] eqn:Ho; [|done].
  injection Hp1 as -> -> <-.
  apply (drain_selection _ _ _ _ _ _ _ _ _ _ _ _ _ _ _ _ [1] Hn Hrun Hσ1).
  unfold passing_locs. simpl. rewrite app_nil_r.
  eapply page_outcome_top; [done..|]. apply list_elem_of_singleton. done.
Qed.

(** X2. For [n >= 0], the list a retrieval returns is the selector applied
    once to all the questions that pass the filter on the pages fetched,
    taken page by page in the order of the reply: the [n] most viewed
    unanswered questions, ties in page order. *)
Theorem retrieval_is_global_top_n fuel self session arrival tag in_title
    from_date batch_size n groups res σ :
  0 ≤ n →
  get_top_n_unanswered_questions_async fuel self session arrival tag in_title
    from_date batch_size n = Some (groups, Ok (res, σ)) →
  get_top_n_questions_by_view_count σ
    (passing_locs (client self) session tag in_title from_date
       (1 :: concat groups)) n
  = Ok res.
Proof. apply retrieval_selection. Qed.

Lemma retrieval_is_global_top_n_witness :
  get_top_n_questions_by_view_count (returned (sample_run 350 2 5)).2
    (passing_locs (client new_controller) (sample_session 350) "python" "" 0
       (1 :: concat [[2]; [3; 4]])) 5
  = Ok (returned (sample_run 350 2 5)).1.
Proof.
  apply (retrieval_is_global_top_n 10 new_controller (sample_session 350)
           in_page_order "python" "" 0 2 5 [[2]; [3; 4]]).
  - lia.
  - vm_compute. reflexivity.
Defined.

(** X3. For [n >= 0], no question that passes the filter on a fetched page
    and is left out of the result has more views than a question in the
    result. *)
Theorem retrieval_result_is_highest fuel self session arrival tag in_title
    from_date batch_size n groups res σ a l :
  0 ≤ n →
  get_top_n_unanswered_questions_async fuel self session arrival tag in_title
    from_date batch_size n = Some (groups, Ok (res, σ)) →
  a ∈ res →
  l ∈ passing_locs (client self) session tag in_title from_date
        (1 :: concat groups) →
  l ∉ res →
  rank_ge σ a l.
Proof.
  intros Hn Hrun Ha Hl Hnot.
  apply (retrieval_selection _ _ _ _ _ _ _ _ _ _ _ _ Hn) in Hrun.
  apply get_top_n_spec in Hrun as (s & Hperm & Hsorted & _ & ->).
  rewrite slice_to_nonneg in * by done.
  rewrite <-Hperm, <-(take_drop (Z.to_nat n) s) in Hl.
  apply elem_of_app in Hl as [Hl|Hl]; [done|].
  rewrite <-(take_drop (Z.to_nat n) s) in Hsorted.
  by eapply StronglySorted_app_1_elem_of.
Qed.

Lemma retrieval_result_is_highest_witness :
  rank_ge (returned (sample_run 350 2 2)).2 (3, 0%nat) (2, 0%nat).
Proof.
  apply (retrieval_result_is_highest 10 new_controller (sample_session 350)
           in_page_order "python" "" 0 2 2 [[2]; [3; 4]]
           (returned (sample_run 350 2 2)).1).
  - lia.
  - vm_compute. reflexivity.
  - vm_compute. apply elem_of_cons. right. apply elem_of_cons. by left.
  - vm_compute. do 2 (apply elem_of_cons; right). apply elem_of_cons. by left.
  - vm_compute. intros H. repeat (apply elem_of_cons in H as [H|H];
      [discriminate H|]). by apply elem_of_nil in H.
Defined.

(** ** The scheduler at its edges *)

Lemma ceil_div_100 a :
  100 * (ceil_div a 100 - 1) < a ≤ 100 * ceil_div a 100.
Proof.
  unfold ceil_div. pose proof (Z.div_mod (- a) 100 ltac:(lia)).
  pose proof (Z.mod_pos_bound (- a) 100 ltac:(lia)). lia.
Qed.

Section edges.
Variables (self : StackOverflowController) (session : ClientSession).
Variables (arrival : Z → nat) (tag in_title : string).
Variables (from_date batch_size n : Z).

Local Abbreviation drain' fuel :=
  (drain fuel self session arrival tag in_title from_date batch_size n).

(** More fuel does not change what the loop does. *)
Lemma drain_fuel_mono fuel fuel' page_number r top σ x :
  drain' fuel page_number r top σ = Some x → (fuel ≤ fuel')%nat →
  drain' fuel' page_number r top σ = Some x.
Proof.
  revert fuel' page_number r top σ x.
  induction fuel as [|fuel IH]; intros fuel' page_number r top σ x Hrun Hle.
  { simpl in Hrun. destruct (Z.ltb_spec 0 r); [done|].
    by rewrite drain_done by lia. }
  destruct fuel' as [|fuel']; [lia|].
  destruct (decide (r ≤ 0)) as [Hz|Hpos].
  { rewrite drain_done in Hrun |- * by done. done. }
  destruct (decide (batch_size = 0)) as [HB|HB].
  { cbn [drain] in Hrun |- *. destruct (0 <? r); [|done].
    by destruct (Z.eqb_spec batch_size 0). }
  rewrite drain_step in Hrun |- * by lia. cbn zeta in Hrun |- *.
  destruct (gather _ _ _ _) as [[results σ1]|e]; [|done].
  destruct (fold_group _ _ _ _) as [top1|e]; [|done].
  destruct (drain' fuel _ _ _ _) as [y|] eqn:Hrec; [|done].
  by rewrite (IH fuel' _ _ _ _ _ Hrec) by lia.
Qed.

(** With a negative batch size and pages left, every round requests no
    page and leaves more pages to fetch than before. *)
Lemma drain_negative_batch fuel page_number r top σ :
  batch_size < 0 → 0 < r → drain' fuel page_number r top σ = None.
Proof.
  intros HB. revert page_number r top σ.
  induction fuel as [|fuel IH]; intros page_number r top σ Hr.
  { simpl. by destruct (Z.ltb_spec 0 r); [|lia]. }
  rewrite drain_step by lia. cbn zeta.
  assert (current_page_count r batch_size < 0) as Hneg.
  { unfold current_page_count.
    pose proof (Z.mod_neg_bound r batch_size HB).
    destruct (Z.eqb_spec (r mod batch_size) 0); lia. }
  assert (group_pages page_number (current_page_count r batch_size) = [])
    as ->.
  { unfold group_pages. by replace (Z.to_nat _) with 0%nat by lia. }
  cbn. by rewrite IH by lia.
Qed.
End edges.

(** X4. For a batch size of at least 1 the retrieval finishes, with a list
    or with an exception, as soon as the fuel covers the pages that remain
    after page 1; more fuel gives the same groups and the same outcome. *)
Theorem retrieval_finishes fuel self session arrival tag in_title from_date
    batch_size n :
  1 ≤ batch_size →
  (match page_outcome (client self) session tag in_title from_date n 1 with
   | Ok (_, remaining) => Z.to_nat remaining
   | Err _ => 0%nat
   end ≤ fuel)%nat →
  ∃ groups out,
    ∀ fuel', (fuel ≤ fuel')%nat →
      get_top_n_unanswered_questions_async fuel' self session arrival tag
        in_title from_date batch_size n = Some (groups, out).
Proof.
  intros HB Hfuel. unfold get_top_n_unanswered_questions_async.
  rewrite fetch_page_outcome.
  destruct (page_outcome _ _ _ _ _ _ _) as [[top r]|e]; [|eauto].
  edestruct (drain_terminates self session arrival tag in_title from_date
               batch_size n fuel 1 r top) as (groups & out & Hrun);
    [done..|].
  exists groups, out. intros fuel' Hle. by eapply drain_fuel_mono.
Qed.

Lemma retrieval_finishes_witness :
  ∃ groups out,
    ∀ fuel', (3 ≤ fuel')%nat →
      get_top_n_unanswered_questions_async fuel' new_controller
        (sample_session 350) in_page_order "python" "" 0 2 5
      = Some (groups, out).
Proof.
  apply retrieval_finishes; [lia|vm_compute; lia].
Defined.

(** X5. With a negative batch size the retrieval never returns once page 1
    reports more than one page: the loop requests nothing and the count of
    remaining pages only grows. *)
Theorem negative_batch_size_never_returns fuel self session arrival tag
    in_title from_date batch_size n top remaining :
  batch_size < 0 →
  page_outcome (client self) session tag in_title from_date n 1
  = Ok (top, remaining) →
  0 < remaining →
  get_top_n_unanswered_questions_async fuel self session arrival tag in_title
    from_date batch_size n = None.
Proof.
  intros HB Ho Hr. unfold get_top_n_unanswered_questions_async.
  rewrite fetch_page_outcome, Ho. by apply drain_negative_batch.
Qed.

Lemma negative_batch_size_never_returns_witness :
  get_top_n_unanswered_questions_async 1000 new_controller
    (sample_session 350) in_page_order "python" "" 0 (-2) 5 = None.
Proof.
  apply (negative_batch_size_never_returns 1000 new_controller
           (sample_session 350) in_page_order "python" "" 0 (-2) 5
           [(1, 0%nat); (1, 2%nat)] 3); [lia|vm_compute; reflexivity|lia].
Defined.

(** X6. With a batch size of 0 the retrieval raises [ZeroDivisionError]
    once page 1 reports more than one page, and requests no further page. *)
Theorem zero_batch_size_raises fuel self session arrival tag in_title
    from_date n top remaining :
  page_outcome (client self) session tag in_title from_date n 1
  = Ok (top, remaining) →
  0 < remaining →
  get_top_n_unanswered_questions_async (S fuel) self session arrival tag
    in_title from_date 0 n = Some ([], Err ZeroDivisionError).
Proof.
  intros Ho Hr. unfold get_top_n_unanswered_questions_async.
  rewrite fetch_page_outcome, Ho. cbn [drain].
  by destruct (Z.ltb_spec 0 remaining); [|lia].
Qed.

Lemma zero_batch_size_raises_witness :
  get_top_n_unanswered_questions_async 1 new_controller (sample_session 350)
    in_page_order "python" "" 0 0 5 = Some ([], Err ZeroDivisionError).
Proof.
  apply (zero_batch_size_raises 0 new_controller (sample_session 350)
           in_page_order "python" "" 0 5 [(1, 0%nat); (1, 2%nat)] 3);
    [vm_compute; reflexivity|lia].
Defined.

(** X7. When the reply to page 1 reports at most 100 matching questions (or
    no [total] at all), the retrieval makes no further request, whatever the
    batch size: it returns the top [n] of page 1, or raises what the fetch
    of page 1 raises. *)
Theorem single_page_retrieval fuel self session arrival tag in_title
    from_date batch_size n reply :
  session (base_url (client self))
    (build_query_params (client self) tag in_title from_date 1 100)
  = Ok reply →
  default 0 (total reply) ≤ 100 →
  get_top_n_unanswered_questions_async fuel self session arrival tag in_title
    from_date batch_size n
  = Some ([], match fetch_top_n_unanswered_questions_async (client self)
                      session tag in_title from_date 1 n 100 ∅
              with
              | Ok ((top, _), σ) => Ok (top, σ)
              | Err e => Err e
              end).
Proof.
  intros Hreply Htotal. unfold get_top_n_unanswered_questions_async.
  destruct (fetch_top_n_unanswered_questions_async _ _ _ _ _ _ _ _ _)
    as [[[top r] σ]|e] eqn:Hfetch; [|done].
  rewrite fetch_unfold, Hreply in Hfetch.
  destruct (negb (ok reply)); [done|]. cbn zeta in Hfetch.
  destruct (forallb count_ok _); [|done].
  destruct (get_top_n_questions_by_view_count _ _ _); [|done].
  injection Hfetch as _ <- _. apply drain_done.
  pose proof (ceil_div_100 (default 0 (total reply))). lia.
Qed.

Lemma single_page_retrieval_witness :
  get_top_n_unanswered_questions_async 0 new_controller (sample_session 80)
    in_page_order "python" "" 0 0 5
  = Some ([], match fetch_top_n_unanswered_questions_async
                      (client new_controller) (sample_session 80) "python" ""
                      0 1 5 100 ∅
              with
              | Ok ((top, _), σ) => Ok (top, σ)
              | Err e => Err e
              end).
Proof.
  apply (single_page_retrieval 0 new_controller (sample_session 80)
           in_page_order "python" "" 0 0 5
           {| ok := true; error_message := None; error_id := None;
              items := Some [sample_question 10 (Some 0);
                             sample_question 15 (Some 2);
                             sample_question 1 None];
              total := Some 80 |}).
  - reflexivity.
  - simpl. lia.
Defined.

Section requested.
Variables (self : StackOverflowController) (session : ClientSession).
Variables (arrival : Z → nat) (tag in_title : string).
Variables (from_date batch_size n : Z).

Lemma drain_bounds fuel page_number r top σ groups out :
  1 ≤ batch_size →
  drain fuel self session arrival tag in_title from_date batch_size n
    page_number r top σ = Some (groups, out) →
  Forall (λ g, 1 ≤ Z.of_nat (length g) ≤ batch_size) groups.
Proof.
  intros HB Hrun. destruct (decide (r ≤ 0)) as [Hz|Hpos].
  { rewrite drain_done in Hrun by done. by injection Hrun as <- _. }
  assert (0 < r) as Hr by lia.
  destruct (drain_groups _ _ _ _ _ _ _ _ _ _ _ _ _ _ _ HB Hr Hrun)
    as ((g & rest & -> & Hg & Hrest) & _).
  destruct (current_page_count_bounds r batch_size HB Hr) as (Hw & _).
  constructor; [lia|].
  eapply Forall_impl; [exact Hrest|]. intros g' Hg'. simpl in Hg'. lia.
Qed.

Lemma drain_pages fuel page_number r top σ groups res σ' :
  1 ≤ batch_size →
  drain fuel self session arrival tag in_title from_date batch_size n
    page_number r top σ = Some (groups, Ok (res, σ')) →
  concat groups = seqZ (page_number + 1) r.
Proof.
  intros HB Hrun. destruct (decide (r ≤ 0)) as [Hz|Hpos].
  { rewrite drain_done in Hrun by done. injection Hrun as <- _ _.
    unfold seqZ. by replace (Z.to_nat r) with 0%nat by lia. }
  assert (0 < r) as Hr by lia.
  destruct (drain_groups _ _ _ _ _ _ _ _ _ _ _ _ _ _ _ HB Hr Hrun)
    as (_ & Hcons & Hlen).
  specialize (Hlen eq_refl).
  apply (list_eq_same_length _ _ (Z.to_nat r)).
  - rewrite length_seqZ. lia.
  - lia.
  - intros i x y Hi Hx Hy. apply Hcons in Hx.
    apply lookup_seqZ in Hy as [-> _]. lia.
Qed.

Lemma drain_pages_any fuel page_number r top σ groups res σ' :
  drain fuel self session arrival tag in_title from_date batch_size n
    page_number r top σ = Some (groups, Ok (res, σ')) →
  concat groups = seqZ (page_number + 1) r.
Proof.
  intros Hrun. destruct (decide (1 ≤ batch_size)) as [HB|HB].
  { by eapply drain_pages. }
  destruct (decide (r ≤ 0)) as [Hz|Hpos].
  { rewrite drain_done in Hrun by done. injection Hrun as <- _ _.
    unfold seqZ. by replace (Z.to_nat r) with 0%nat by lia. }
  destruct (decide (batch_size = 0)) as [H0|H0].
  - destruct fuel as [|fuel]; cbn [drain] in Hrun;
      destruct (Z.ltb_spec 0 r); try lia; [done|].
    by destruct (Z.eqb_spec batch_size 0).
  - by rewrite drain_negative_batch in Hrun by lia.
Qed.

Lemma drain_all_fetched fuel page_number r top σ groups res σ' k :
  drain fuel self session arrival tag in_title from_date batch_size n
    page_number r top σ = Some (groups, Ok (res, σ')) →
  k ∈ concat groups →
  is_ok (page_outcome (client self) session tag in_title from_date n k)
  = true.
Proof.
  intros Hrun Hk.
  destruct (page_outcome _ _ _ _ _ _ k) as [a|e] eqn:Ho; [done|].
  by destruct (drain_fail _ _ _ _ _ _ _ _ _ _ _ _ _ _ _ _ _ Hrun Hk Ho)
    as (? & ? & ? & _ & _ & _ & _ & ? & _).
Qed.
End requested.

(** X8. A retrieval returns a list only if the fetch of every page it
    requested, page 1 included, succeeded. *)
Theorem result_needs_every_page fuel self session arrival tag in_title
    from_date batch_size n groups res σ k :
  get_top_n_unanswered_questions_async fuel self session arrival tag in_title
    from_date batch_size n = Some (groups, Ok (res, σ)) →
  k ∈ 1 :: concat groups →
  ∃ top remaining,
    page_outcome (client self) session tag in_title from_date n k
    = Ok (top, remaining).
Proof.
  unfold get_top_n_unanswered_questions_async. rewrite fetch_page_outcome.
  destruct (page_outcome _ _ _ _ _ _ 1) as [[top r]|e] eqn:Ho; [|done].
  intros Hrun [->|Hk]%elem_of_cons; [eauto|].
  pose proof (drain_all_fetched _ _ _ _ _ _ _ _ _ _ _ _ _ _ _ _ _ Hrun Hk)
    as Hok.
  destruct (page_outcome _ _ _ _ _ _ k) as [[top' r']|]; [eauto|done].
Qed.

Lemma result_needs_every_page_witness :
  ∃ top remaining,
    page_outcome (client new_controller) (sample_session 350) "python" "" 0 5
      3 = Ok (top, remaining).
Proof.
  apply (result_needs_every_page 10 new_controller (sample_session 350)
           in_page_order "python" "" 0 2 5 [[2]; [3; 4]]
           (returned (sample_run 350 2 5)).1
           (returned (sample_run 350 2 5)).2).
  - vm_compute. reflexivity.
  - simpl. do 2 (apply elem_of_cons; right). apply elem_of_cons. by left.
Defined.

(** X9. For a batch size of at least 1, every [gather] of a retrieval is
    handed at least one and at most [batch_size] fetches. *)
Theorem group_width_bound fuel self session arrival tag in_title from_date
    batch_size n groups out :
  1 ≤ batch_size →
  get_top_n_unanswered_questions_async fuel self session arrival tag in_title
    from_date batch_size n = Some (groups, out) →
  Forall (λ g, 1 ≤ Z.of_nat (length g) ≤ batch_size) groups.
Proof.
  intros HB. unfold get_top_n_unanswered_questions_async.
  destruct (fetch_top_n_unanswered_questions_async _ _ _ _ _ _ _ _ _)
    as [[[top r] σ]|e].
  - by apply drain_bounds.
  - by intros [= <- _].
Qed.

Lemma group_width_bound_witness :
  Forall (λ g, 1 ≤ Z.of_nat (length g) ≤ 2) [[2]; [3; 4]].
Proof.
  apply (group_width_bound 10 new_controller (sample_session 350)
           in_page_order "python" "" 0 2 5 [[2]; [3; 4]]
           (Ok (returned (sample_run 350 2 5)))).
  - lia.
  - vm_compute. reflexivity.
Defined.



(** ** The filter as a procedure on the caller's objects *)

Lemma is_answered_unanswered l σ b σ' q :
  is_answered l σ = Ok (b, σ') → σ !! l = Some q → b = negb (unanswered q).
Proof.
  intros (q' & z & Hl & Hz & -> & _)%is_answered_inv Hq.
  assert (q' = q) as -> by congruence.
  unfold unanswered. destruct (q !! "answer_count") as [[z'|s]|]; simpl in Hz.
  - injection Hz as ->. by rewrite negb_involutive.
  - done.
  - by injection Hz as <-.
Qed.

(** X11. [remove_answered_questions] changes the objects it is given: after
    the call every question of the input list, kept or not, is without its
    [answer_count] and otherwise as before; objects outside the list are
    untouched, and the questions kept stand in the order of the input. *)
Theorem remove_answered_effect questions σ kept σ' :
  remove_answered_questions questions σ = Ok (kept, σ') →
  (∀ l, σ' !! l = if decide (l ∈ questions)
                  then delete "answer_count" <$> σ !! l
                  else σ !! l)
  ∧ kept `sublist_of` questions.
Proof.
  revert σ kept σ'. induction questions as [|l qs IH]; intros σ kept σ' Hrun.
  - injection Hrun as <- <-. split; [|done]. intros l.
    by rewrite decide_False by apply not_elem_of_nil.
  - cbn [remove_answered_questions] in Hrun. unfold bind at 1 in Hrun.
    destruct (is_answered l σ) as [[b σ1]|] eqn:Hans; [|done].
    unfold bind at 1 in Hrun.
    destruct (remove_answered_questions qs σ1) as [[kept' σ2]|] eqn:Hrest;
      [|done].
    injection Hrun as <- <-.
    apply is_answered_inv in Hans as (q & z & Hl & _ & _ & ->).
    destruct (IH _ _ _ Hrest) as [Hheap Hsub]. split.
    + intros l'. rewrite Hheap.
      destruct (decide (l' = l)) as [->|Hne].
      * rewrite lookup_insert_eq, Hl, (decide_True (P := l ∈ l :: qs))
          by (apply elem_of_cons; by left).
        case_decide; simpl; [|done]. by rewrite delete_delete_eq.
      * rewrite lookup_insert_ne by done.
        destruct (decide (l' ∈ qs)) as [Hin|Hin].
        -- by rewrite decide_True by (apply elem_of_cons; by right).
        -- rewrite decide_False; [done|].
           by intros [?|?]%elem_of_cons.
    + destruct b; [by apply sublist_cons|by apply sublist_skip].
Qed.

Lemma remove_answered_effect_witness :
  let σ : heap := {[ (1, 0%nat) := sample_question 7 None;
                     (1, 1%nat) := sample_question 9 (Some 3) ]} in
  let σ' : heap :=
    <[(1, 1%nat) := delete "answer_count" (sample_question 9 (Some 3))]> σ in
  (∀ l, σ' !! l = if decide (l ∈ [(1, 1%nat)])
                  then delete "answer_count" <$> σ !! l
                  else σ !! l)
  ∧ [] `sublist_of` [(1, 1%nat)].
Proof.
  apply remove_answered_effect. vm_compute. reflexivity.
Defined.

(** X12. On a list without repetitions the filter keeps exactly the
    questions that had no positive [answer_count] when it was called. *)
Theorem remove_answered_exact questions σ kept σ' l :
  NoDup questions →
  remove_answered_questions questions σ = Ok (kept, σ') →
  l ∈ kept ↔ l ∈ questions ∧ ∃ q, σ !! l = Some q ∧ unanswered q = true.
Proof.
  intros Hnd. revert σ kept σ'.
  induction Hnd as [|l0 qs Hnotin Hnd IH]; intros σ kept σ' Hrun.
  - injection Hrun as <- <-. split.
    + by intros ?%elem_of_nil.
    + by intros [?%elem_of_nil _].
  - cbn [remove_answered_questions] in Hrun. unfold bind at 1 in Hrun.
    destruct (is_answered l0 σ) as [[b σ1]|] eqn:Hans; [|done].
    unfold bind at 1 in Hrun.
    destruct (remove_answered_questions qs σ1) as [[kept' σ2]|] eqn:Hrest;
      [|done].
    injection Hrun as <- <-.
    pose proof (is_answered_inv _ _ _ _ Hans) as (q0 & z & Hl0 & _ & _ & ->).
    pose proof (is_answered_unanswered _ _ _ _ _ Hans Hl0) as Hb.
    specialize (IH _ _ _ Hrest).
    assert (l ∈ kept' ↔ l ∈ qs ∧ ∃ q, σ !! l = Some q ∧ unanswered q = true)
      as IH'.
    { rewrite IH. split; intros [Hin Hex]; (split; [done|]).
      - rewrite lookup_insert_ne in Hex; [done|]. by intros ->.
      - rewrite lookup_insert_ne; [done|]. by intros ->. }
    destruct (unanswered q0) eqn:Hu; simpl in Hb; subst b.
    + rewrite !elem_of_cons, IH'. split.
      * intros [->|[Hin Hex]]; [|by auto]. split; [by left|eauto].
      * intros [[->|Hin] Hex]; [by left|by right].
    + rewrite elem_of_cons, IH'. split.
      * intros [Hin Hex]. by auto.
      * intros [[->|Hin] Hex]; [|done].
        destruct Hex as (q & Hq & Hu'). congruence.
Qed.

Lemma remove_answered_exact_witness :
  (1, 0%nat) ∈ [(1, 0%nat)]
  ↔ (1, 0%nat) ∈ [(1, 0%nat); (1, 1%nat)]
    ∧ ∃ q, ({[ (1, 0%nat) := sample_question 7 None;
               (1, 1%nat) := sample_question 9 (Some 3) ]} : heap)
             !! (1, 0%nat) = Some q
           ∧ unanswered q = true.
Proof.
  apply (remove_answered_exact _ _ _
           (<[(1, 1%nat) := delete "answer_count" (sample_question 9 (Some 3))]>
              {[ (1, 0%nat) := sample_question 7 None;
                 (1, 1%nat) := sample_question 9 (Some 3) ]})).
  - apply NoDup_cons. split; [|apply NoDup_singleton].
    by intros [=]%list_elem_of_singleton.
  - vm_compute. reflexivity.
Defined.

(** X13. [is_answered] cannot be asked twice: for a question with a positive
    [answer_count] the first call answers [True] and removes the field, and
    a second call on the same object answers [False]; so a list that holds
    such a question twice keeps its second occurrence. *)
Theorem is_answered_twice σ l q z :
  σ !! l = Some q →
  q !! "answer_count" = Some (VInt z) →
  0 < z →
  let σ1 := <[l := delete "answer_count" q]> σ in
  is_answered l σ = Ok (true, σ1)
  ∧ is_answered l σ1 = Ok (false, σ1)
  ∧ remove_answered_questions [l; l] σ = Ok ([l], σ1).
Proof.
  intros Hl Hq Hz σ1.
  assert (is_answered l σ = Ok (true, σ1)) as H1.
  { rewrite (is_answered_int _ _ _ _ Hl Hq).
    by destruct (Z.ltb_spec 0 z); [|lia]. }
  assert (is_answered l σ1 = Ok (false, σ1)) as H2.
  { eapply is_answered_absent; [apply lookup_insert_eq|].
    apply lookup_delete_eq. }
  split_and!; [done..|].
  cbn [remove_answered_questions]. unfold bind at 1. rewrite H1.
  unfold bind at 1. unfold bind at 1. rewrite H2.
  unfold bind at 1. done.
Qed.

Lemma is_answered_twice_witness :
  let σ : heap := {[ (1, 1%nat) := sample_question 9 (Some 3) ]} in
  let σ1 : heap :=
    <[(1, 1%nat) := delete "answer_count" (sample_question 9 (Some 3))]> σ in
  is_answered (1, 1%nat) σ = Ok (true, σ1)
  ∧ is_answered (1, 1%nat) σ1 = Ok (false, σ1)
  ∧ remove_answered_questions [(1, 1%nat); (1, 1%nat)] σ
    = Ok ([(1, 1%nat)], σ1).
Proof.
  apply (is_answered_twice _ _ _ 3); [reflexivity..|lia].
Defined.

(** ** The selector at its edges *)

Lemma decorate_total σ qs :
  Forall (λ l, ∃ z, view_count σ l = Ok z) qs → ∃ ks, decorate σ qs = Ok ks.
Proof.
  induction 1 as [|l qs [z Hz] _ [ks IH]]; simpl; [eauto|].
  rewrite Hz, IH. eauto.
Qed.

(** X14. The selector succeeds, for every [n], when each question has an
    integer [view_count]; it raises [KeyError] for the first question
    without a [view_count], also when [n] is 0: the keys are computed
    before anything is cut. *)
Theorem selector_key_errors σ qs n :
  (Forall (λ l, ∃ z, view_count σ l = Ok z) qs →
   ∃ res, get_top_n_questions_by_view_count σ qs n = Ok res)
  ∧ (∀ qs1 l q qs2,
       qs = qs1 ++ l :: qs2 →
       Forall (λ l', ∃ z, view_count σ l' = Ok z) qs1 →
       σ !! l = Some q → q !! "view_count" = None →
       get_top_n_questions_by_view_count σ qs n = Err (KeyError "view_count")).
Proof.
  split.
  - intros [ks Hks]%decorate_total.
    unfold get_top_n_questions_by_view_count. rewrite Hks. eauto.
  - intros qs1 l q qs2 -> [ks1 Hks1]%decorate_total Hl Hq.
    unfold get_top_n_questions_by_view_count.
    rewrite (decorate_app _ _ _ _ Hks1). simpl.
    unfold view_count. by rewrite Hl, Hq.
Qed.

Lemma selector_key_errors_witness :
  let σ : heap := {[ (1, 0%nat) := sample_question 7 None;
                     (1, 1%nat) := {[ "link" := VStr "q/1" ]} ]} in
  get_top_n_questions_by_view_count σ [(1, 0%nat); (1, 1%nat)] 0
  = Err (KeyError "view_count").
Proof.
  intros σ.
  apply (proj2 (selector_key_errors σ [(1, 0%nat); (1, 1%nat)] 0)
           [(1, 0%nat)] (1, 1%nat) {[ "link" := VStr "q/1" ]} []).
  - reflexivity.
  - constructor; [|constructor]. exists 7. reflexivity.
  - reflexivity.
  - reflexivity.
Defined.

(** X15. The selector returns a part of its input, nothing twice that was
    there once, and all of it, reordered, when [n] is at least the length of
    the input. *)
Theorem selector_returns_part σ qs n res :
  get_top_n_questions_by_view_count σ qs n = Ok res →
  res ⊆+ qs ∧ (Z.of_nat (length qs) ≤ n → res ≡ₚ qs).
Proof.
  intros (s & Hperm & _ & _ & ->)%get_top_n_spec. split.
  - rewrite <-Hperm. unfold slice_to.
    destruct (0 <=? n); apply submseteq_take.
  - intros Hn. rewrite slice_to_id; [done|]. by rewrite Hperm.
Qed.

Lemma selector_returns_part_witness :
  let σ := (returned (sample_run 350 2 5)).2 in
  [(2, 0%nat); (1, 0%nat)] ⊆+ [(1, 0%nat); (2, 2%nat); (2, 0%nat)].
Proof.
  intros σ.
  apply (selector_returns_part σ [(1, 0%nat); (2, 2%nat); (2, 0%nat)] 2).
  vm_compute. reflexivity.
Defined.

(** ** Replies with missing keys *)

(** X16. A reply to page 1 that is [ok] but has neither [items] nor [total]
    ends the retrieval at once with the empty list, for every batch size
    and every [n]. *)
Theorem empty_body_gives_empty_list fuel self session arrival tag in_title
    from_date batch_size n reply :
  session (base_url (client self))
    (build_query_params (client self) tag in_title from_date 1 100)
  = Ok reply →
  ok reply = true → items reply = None → total reply = None →
  get_top_n_unanswered_questions_async fuel self session arrival tag in_title
    from_date batch_size n = Some ([], Ok ([], ∅)).
Proof.
  intros Hreply Hok Hitems Htotal.
  unfold get_top_n_unanswered_questions_async.
  rewrite fetch_unfold, Hreply, Hok, Hitems, Htotal. simpl.
  unfold get_top_n_questions_by_view_count. simpl.
  assert (@slice_to loc n [] = []) as ->.
  { unfold slice_to. by destruct (0 <=? n); rewrite take_nil. }
  by apply drain_done.
Qed.

Lemma empty_body_gives_empty_list_witness :
  get_top_n_unanswered_questions_async 0 new_controller
    (λ _ _, Ok {| ok := true; error_message := None; error_id := None;
                  items := None; total := None |})
    in_page_order "python" "" 0 10 5
  = Some ([], Ok ([], ∅)).
Proof.
  apply (empty_body_gives_empty_list 0 new_controller _ in_page_order
           "python" "" 0 10 5
           {| ok := true; error_message := None; error_id := None;
              items := None; total := None |}); reflexivity.
Defined.

(** ** What the retrieval depends on *)

Lemma run_fetches_ext {A} (f g : Z → M A) pages σ :
  (∀ p σ', f p σ' = g p σ') → run_fetches f pages σ = run_fetches g pages σ.
Proof.
  intros Hfg. revert σ. induction pages as [|p pages IH]; intros σ; [done|].
  cbn [run_fetches]. rewrite Hfg. destruct (g p σ) as [[a σ']|e];
    by rewrite IH.
Qed.

Lemma gather_ext {A} arrival (f g : Z → M A) pages σ :
  (∀ p σ', f p σ' = g p σ') → gather arrival f pages σ = gather arrival g pages σ.
Proof. intros Hfg. unfold gather. by rewrite (run_fetches_ext f g). Qed.

Lemma gather_arrival {A} arrival arrival' (f : Z → M A) pages σ :
  match gather arrival f pages σ with
  | Ok x => gather arrival' f pages σ = Ok x
  | Err _ => ∃ e', gather arrival' f pages σ = Err e'
  end.
Proof.
  unfold gather. destruct (run_fetches f pages σ) as [[[|x errs] oks] σ'];
    eauto.
Qed.

Section dependence.
Variables (self : StackOverflowController) (tag in_title : string).
Variables (from_date batch_size n : Z).

Lemma drain_arrival session arrival arrival' fuel page_number r top σ groups out :
  drain fuel self session arrival tag in_title from_date batch_size n
    page_number r top σ = Some (groups, out) →
  ∃ out',
    drain fuel self session arrival' tag in_title from_date batch_size n
      page_number r top σ = Some (groups, out')
    ∧ is_ok out' = is_ok out
    ∧ (is_ok out = true → out' = out).
Proof.
  revert page_number r top σ groups.
  induction fuel as [|fuel IH]; intros page_number r top σ groups Hrun.
  { simpl in *. destruct (0 <? r); [done|]. eauto. }
  destruct (decide (r ≤ 0)) as [Hz|Hpos].
  { rewrite drain_done in Hrun |- * by done. eauto. }
  destruct (decide (batch_size = 0)) as [HB|HB].
  { cbn [drain] in Hrun |- *. destruct (0 <? r); [|eauto].
    destruct (Z.eqb_spec batch_size 0) as [_|Hne]; [eauto|by destruct Hne]. }
  rewrite drain_step in Hrun |- * by lia. cbn zeta in Hrun |- *.
  set (f := λ p, fetch_top_n_unanswered_questions_async (client self) session
                   tag in_title from_date p n 100) in *.
  pose proof (gather_arrival arrival arrival' f
                (group_pages page_number (current_page_count r batch_size)) σ)
    as Hg.
  destruct (gather arrival f _ σ) as [[results σ1]|e].
  - rewrite Hg. destruct (fold_group _ _ _ _) as [top1|e1]; [|eauto].
    destruct (drain _ _ _ arrival _ _ _ _ _ _ _ _ _) as [[groups' out0]|]
      eqn:Hrec; [|done].
    injection Hrun as <- <-.
    destruct (IH _ _ _ _ _ Hrec) as (out' & -> & Hok & Heq). eauto.
  - destruct Hg as [e' ->]. injection Hrun as <- <-.
    exists (Err e'). by split_and!.
Qed.

Lemma fetch_session_ext (session session' : ClientSession) p σ :
  session (base_url (client self))
    (build_query_params (client self) tag in_title from_date p 100)
  = session' (base_url (client self))
      (build_query_params (client self) tag in_title from_date p 100) →
  fetch_top_n_unanswered_questions_async (client self) session tag in_title
    from_date p n 100 σ
  = fetch_top_n_unanswered_questions_async (client self) session' tag
      in_title from_date p n 100 σ.
Proof. intros Heq. by rewrite !fetch_unfold, Heq. Qed.

Lemma drain_session_ext (session session' : ClientSession) arrival fuel
    page_number r top σ :
  (∀ p, session (base_url (client self))
          (build_query_params (client self) tag in_title from_date p 100)
        = session' (base_url (client self))
            (build_query_params (client self) tag in_title from_date p 100)) →
  drain fuel self session arrival tag in_title from_date batch_size n
    page_number r top σ
  = drain fuel self session' arrival tag in_title from_date batch_size n
      page_number r top σ.
Proof.
  intros Heq. revert page_number r top σ.
  induction fuel as [|fuel IH]; intros page_number r top σ; [done|].
  destruct (decide (r ≤ 0)) as [Hz|Hpos].
  { by rewrite !drain_done by done. }
  destruct (decide (batch_size = 0)) as [HB|HB].
  { cbn [drain]. destruct (0 <? r); [|done].
    by destruct (Z.eqb_spec batch_size 0) as [_|Hne]. }
  rewrite !drain_step by lia. cbn zeta.
  rewrite (gather_ext arrival _
             (λ p, fetch_top_n_unanswered_questions_async (client self)
                     session' tag in_title from_date p n 100))
    by (intros p σ'; by apply fetch_session_ext).
  destruct (gather _ _ _ _) as [[results σ1]|e]; [|done].
  destruct (fold_group _ _ _ _) as [top1|e1]; [|done].
  by rewrite IH.
Qed.
End dependence.

(** X17. The order in which the fetches of a group complete has no part in
    the list returned: a retrieval that returns a list returns the same
    list, after the same requests, for every order of completion; one that
    raises also raises for every other order (another fetch of the group
    may then be the first to fail). *)
Theorem completion_order_irrelevant fuel self session arrival arrival' tag
    in_title from_date batch_size n groups out :
  get_top_n_unanswered_questions_async fuel self session arrival tag in_title
    from_date batch_size n = Some (groups, out) →
  ∃ out',
    get_top_n_unanswered_questions_async fuel self session arrival' tag
      in_title from_date batch_size n = Some (groups, out')
    ∧ is_ok out' = is_ok out
    ∧ (is_ok out = true → out' = out).
Proof.
  unfold get_top_n_unanswered_questions_async.
  destruct (fetch_top_n_unanswered_questions_async _ _ _ _ _ _ _ _ _)
    as [[[top r] σ]|e].
  - apply drain_arrival.
  - intros [= <- <-]. eauto.
Qed.

Lemma completion_order_irrelevant_witness :
  ∃ out',
    get_top_n_unanswered_questions_async 10 new_controller
      (sample_session 350) (λ p, Z.to_nat (10 - p)) "python" "" 0 2 5
    = Some ([[2]; [3; 4]], out')
    ∧ is_ok out' = true
    ∧ (true = true → out' = Ok (returned (sample_run 350 2 5))).
Proof.
  apply (completion_order_irrelevant 10 new_controller (sample_session 350)
           in_page_order (λ p, Z.to_nat (10 - p)) "python" "" 0 2 5
           [[2]; [3; 4]] (Ok (returned (sample_run 350 2 5)))).
  vm_compute. reflexivity.
Defined.

(** X18. A retrieval asks the session for nothing but the base URL of its
    client with the parameters [tagged], [intitle] and [fromdate] it was
    called with, a page number, [pagesize = 100], [sort = "creation"] and
    the [site] and [filter] of the client: two sessions that answer these
    requests alike give the same retrieval. *)
Theorem retrieval_requests_only fuel self session session' arrival tag
    in_title from_date batch_size n :
  (∀ p, session (base_url (client self))
          {| q_tagged := tag; q_intitle := in_title; q_fromdate := from_date;
             q_page := p; q_pagesize := 100; q_sort := "creation";
             q_site := site (client self);
             q_filter := question_filter (client self) |}
        = session' (base_url (client self))
            {| q_tagged := tag; q_intitle := in_title;
               q_fromdate := from_date; q_page := p; q_pagesize := 100;
               q_sort := "creation"; q_site := site (client self);
               q_filter := question_filter (client self) |}) →
  get_top_n_unanswered_questions_async fuel self session arrival tag in_title
    from_date batch_size n
  = get_top_n_unanswered_questions_async fuel self session' arrival tag
      in_title from_date batch_size n.
Proof.
  intros Heq. unfold get_top_n_unanswered_questions_async.
  rewrite (fetch_session_ext self tag in_title from_date n session session')
    by apply Heq.
  destruct (fetch_top_n_unanswered_questions_async _ _ _ _ _ _ _ _ _)
    as [[[top r] σ]|e]; [|done].
  by apply drain_session_ext.
Qed.

Lemma retrieval_requests_only_witness :
  get_top_n_unanswered_questions_async 10 new_controller (sample_session 350)
    in_page_order "python" "" 0 2 5
  = get_top_n_unanswered_questions_async 10 new_controller
      (λ url q, if String.eqb (q_sort q) "creation"
                then sample_session 350 url q
                else Err (ClientError "unexpected request"))
      in_page_order "python" "" 0 2 5.
Proof.
  apply retrieval_requests_only. intros p. reflexivity.
Defined.

(** ** Ties and the batch size *)

Lemma before_app {A} (a b : A) (l1 l2 : list A) :
  before a b (l1 ++ l2) →
  before a b l1 ∨ (a ∈ l1 ∧ b ∈ l2) ∨ before a b l2.
Proof.
  induction l1 as [|x l1 IH]; simpl; [auto|].
  intros [[-> Hb]|Hbef]%before_cons.
  - apply elem_of_app in Hb as [Hb|Hb].
    + left. apply before_cons. by left.
    + right. left. split; [|done]. apply elem_of_cons. by left.
  - destruct (IH Hbef) as [H|[[Ha Hb]|H]].
    + left. apply before_cons. by right.
    + right. left. split; [|done]. apply elem_of_cons. by right.
    + by right; right.
Qed.

Lemma before_bind {A B} (f : A → list B) (a b : B) (l : list A) :
  before a b (l ≫= f) →
  (∃ x, x ∈ l ∧ before a b (f x))
  ∨ (∃ x y, before x y l ∧ a ∈ f x ∧ b ∈ f y).
Proof.
  induction l as [|x l IH]; simpl.
  { by intros ([|??] & ? & ? & ?). }
  intros [H|[[Ha Hb]|H]]%before_app.
  - left. exists x. split; [|done]. apply elem_of_cons. by left.
  - right. apply list_elem_of_bind in Hb as (y & Hb & Hy).
    exists x, y. split_and!; [|done..]. apply before_cons. by left.
  - destruct (IH H) as [(y & Hy & Hbef)|(y & z & Hbef & Ha & Hb)].
    + left. exists y. split; [|done]. apply elem_of_cons. by right.
    + right. exists y, z. split_and!; [|done..]. apply before_cons. by right.
Qed.

Lemma before_lookup {A} (a b : A) (l : list A) :
  before a b l → ∃ i j, (i < j)%nat ∧ l !! i = Some a ∧ l !! j = Some b.
Proof.
  intros (l1 & l2 & l3 & ->).
  exists (length l1), (length (l1 ++ a :: l2)). split_and!.
  - rewrite length_app. simpl. lia.
  - by apply list_lookup_middle.
  - change (l1 ++ a :: l2 ++ b :: l3) with (l1 ++ (a :: l2) ++ b :: l3).
    rewrite app_assoc. by apply list_lookup_middle.
Qed.

Lemma before_unanswered_from page_number i qs p j p' j' :
  before (p, j) (p', j') (unanswered_from page_number i qs) →
  p = page_number ∧ p' = page_number ∧ (j < j')%nat.
Proof.
  revert i. induction qs as [|q qs IH]; intros i; simpl.
  { by intros ([|??] & ? & ? & ?). }
  destruct (unanswered q); [|apply IH].
  intros [[[= <- <-] Hin]|Hbef]%before_cons; [|by eapply IH].
  apply elem_of_unanswered_from in Hin as (-> & Hj & _). split_and!; [done..|lia].
Qed.

Lemma retrieval_pages fuel self session arrival tag in_title from_date
    batch_size n groups res σ :
  get_top_n_unanswered_questions_async fuel self session arrival tag in_title
    from_date batch_size n = Some (groups, Ok (res, σ)) →
  ∃ top r,
    page_outcome (client self) session tag in_title from_date n 1
    = Ok (top, r)
    ∧ concat groups = seqZ 2 r.
Proof.
  unfold get_top_n_unanswered_questions_async. rewrite fetch_page_outcome.
  destruct (page_outcome _ _ _ _ _ _ 1) as [[top r]|e]; [|done].
  intros Hrun. exists top, r. split; [done|].
  by apply drain_pages_any in Hrun.
Qed.

(** X19. For [n >= 0], two questions of the result with the same number of
    views stand in the order of their pages, and on one page in the order of
    the reply. *)
Theorem result_tie_order fuel self session arrival tag in_title from_date
    batch_size n groups res σ p i p' i' :
  0 ≤ n →
  get_top_n_unanswered_questions_async fuel self session arrival tag in_title
    from_date batch_size n = Some (groups, Ok (res, σ)) →
  before (p, i) (p', i') res →
  view_count σ (p, i) = view_count σ (p', i') →
  p < p' ∨ (p = p' ∧ (i < i')%nat).
Proof.
  intros Hn Hrun Hbef Hkey.
  destruct (retrieval_pages _ _ _ _ _ _ _ _ _ _ _ _ Hrun)
    as (top & r & _ & Hpages).
  apply (retrieval_selection _ _ _ _ _ _ _ _ _ _ _ _ Hn) in Hrun.
  apply get_top_n_spec in Hrun as (s & _ & _ & Hstable & ->).
  apply (before_prefix _ _ _ s) in Hbef; [|apply slice_to_prefix].
  apply Hstable in Hbef; [|done]. unfold passing_locs in Hbef.
  apply before_bind in Hbef as [(x & _ & Hbef)|(x & y & Hxy & Ha & Hb)].
  - apply before_unanswered_from in Hbef as (-> & -> & Hlt). by right.
  - left. apply elem_of_unanswered_from in Ha as (-> & _).
    apply elem_of_unanswered_from in Hb as (-> & _).
    apply before_lookup in Hxy as (j & k & Hjk & Hj & Hk).
    rewrite Hpages in Hj, Hk.
    assert (∀ m z, (1 :: seqZ 2 r) !! m = Some z → z = 1 + Z.of_nat m) as Hat.
    { intros [|m] z; simpl; [by intros [= <-]|].
      intros [-> _]%lookup_seqZ. lia. }
    apply Hat in Hj, Hk. lia.
Qed.

Lemma result_tie_order_witness :
  2 < 3 ∨ (2 = 3 ∧ (0 < 0)%nat).
Proof.
  apply (result_tie_order 10 new_controller
           (λ _ q, Ok {| ok := true; error_message := None; error_id := None;
                         items := Some [sample_question 4 None];
                         total := Some 300 |})
           in_page_order "python" "" 0 2 5 [[2; 3]]
           [(1, 0%nat); (2, 0%nat); (3, 0%nat)]
           (list_to_map [((1, 0%nat), sample_question 4 None);
                         ((2, 0%nat), sample_question 4 None);
                         ((3, 0%nat), sample_question 4 None)])).
  - lia.
  - vm_compute. reflexivity.
  - by exists [(1, 0%nat)], [], [].
  - reflexivity.
Defined.

(** X20. For [n >= 0], the batch size groups the requests and nothing else:
    two retrievals of the same query that both return a list have requested
    the same pages and return the same list of the same objects, whatever
    their batch sizes and the order in which their fetches complete. *)
Theorem batch_size_irrelevant fuel fuel' self session arrival arrival' tag
    in_title from_date batch_size batch_size' n groups groups' res res' σ σ' :
  0 ≤ n →
  get_top_n_unanswered_questions_async fuel self session arrival tag in_title
    from_date batch_size n = Some (groups, Ok (res, σ)) →
  get_top_n_unanswered_questions_async fuel' self session arrival' tag
    in_title from_date batch_size' n = Some (groups', Ok (res', σ')) →
  concat groups' = concat groups ∧ res' = res ∧ σ' = σ.
Proof.
  intros Hn Hrun Hrun'.
  destruct (retrieval_pages _ _ _ _ _ _ _ _ _ _ _ _ Hrun)
    as (top & r & Ho & Hpages).
  destruct (retrieval_pages _ _ _ _ _ _ _ _ _ _ _ _ Hrun')
    as (top' & r' & Ho' & Hpages').
  rewrite Ho in Ho'. injection Ho' as <- <-.
  assert (concat groups' = concat groups) as Hsame by congruence.
  pose proof (retrieval_merged _ _ _ _ _ _ _ _ _ _ _ _ Hrun) as (Hσ & _).
  pose proof (retrieval_merged _ _ _ _ _ _ _ _ _ _ _ _ Hrun') as (Hσ' & _).
  assert (σ' = σ) as ->.
  { apply map_eq. intros [q j]. by rewrite Hσ, Hσ', Hsame. }
  apply (retrieval_selection _ _ _ _ _ _ _ _ _ _ _ _ Hn) in Hrun, Hrun'.
  rewrite Hsame in Hrun'. split_and!; [done| |done]. congruence.
Qed.

Lemma batch_size_irrelevant_witness :
  concat [[2; 3; 4]] = concat [[2]; [3; 4]]
  ∧ (returned (sample_run 350 7 5)).1 = (returned (sample_run 350 2 5)).1
  ∧ (returned (sample_run 350 7 5)).2 = (returned (sample_run 350 2 5)).2.
Proof.
  apply (batch_size_irrelevant 10 10 new_controller (sample_session 350)
           in_page_order in_page_order "python" "" 0 2 7 5).
  - lia.
  - vm_compute. reflexivity.
  - vm_compute. reflexivity.
Defined.
